(** * gansoi: the HTTP stream layer used as raft transport (package node)

    A shallow embedding of [HTTPStream] (NewHTTPStream, Dial, Accept, Close,
    Addr, String, Network, ServeHTTP).  Listeners live in a heap and are
    reached through pointers, the effects of one call are threaded through a
    state-and-panic monad, and the blocking channel operations of [Accept]
    and [ServeHTTP] are the synchronisation points of a small interleaving
    semantics of goroutines. *)

From Stdlib Require Import ZArith String Ascii List.
From stdpp Require Import base option list gmap strings.

(** ** Go values *)

(** Go's [error], identified with the text its [Error()] method returns. *)
Definition error := string.

(** A Go result pair [(v, err)] in which exactly one side is non-nil. *)
Inductive result (A : Type) : Type :=
| Ok (a : A)
| Err (err : error).
Arguments Ok {A} a.
Arguments Err {A} err.

(** [time.Duration]: a count of nanoseconds. *)
Definition Duration := Z.
Definition Second : Duration := 1000000000%Z.

(** [time.Time]; [TimeZero] is the zero value [time.Time{}], which as a
    deadline means that I/O never times out. *)
Inductive Time :=
| TimeZero
| TimeAt (t : Z).

Definition LF : string := String "010"%char EmptyString.
Definition CR : string := String "013"%char EmptyString.

(** [strings.IndexByte]: index of the first [c] in [s], or -1. *)
Fixpoint IndexByte (s : string) (c : ascii) : Z :=
  match s with
  | EmptyString => (-1)%Z
  | String a s' =>
      if Ascii.eqb a c then 0%Z
      else let i := IndexByte s' c in
           if (i <? 0)%Z then (-1)%Z else (i + 1)%Z
  end.

(** [strings.IndexRune] for a rune below [utf8.RuneSelf], the only case
    Dial uses (the rune is ':'): Go then searches for the single byte. *)
Definition IndexRune (s : string) (r : ascii) : Z := IndexByte s r.

(** ** The collaborators' types *)

Definition loc := nat.
Definition chan := nat.
Definition ConnId := nat.

(** The fields of [net.Dialer] the stream layer sets. *)
Record net_Dialer := {
  Timeout : Duration;
  KeepAlive : Duration
}.

Definition tls_Certificate := string.
Definition x509_CertPool := list string.

Record tls_Config := {
  RootCAs : x509_CertPool;
  Certificates : list tls_Certificate;
  ServerName : string;
  InsecureSkipVerify : bool
}.

(** [http.Request]: only its header is read. *)
Record Request := {
  Header : gmap string (list string)
}.

(** [http.Header.Get]: the first value stored under the key, or the empty
    string.  The key "Upgrade" is already in canonical form. *)
Definition Header_Get (hd : gmap string (list string)) (key : string) : string :=
  match hd !! key with
  | Some (v :: _) => v
  | _ => EmptyString
  end.

(** [http.ResponseWriter].  [Hijacker] is [None] when the writer does not
    implement [http.Hijacker]; otherwise it holds what [Hijack()] returns. *)
Record ResponseWriter := {
  rw_id : nat;
  Hijacker : option (result ConnId)
}.

(** Modelled from the spec: package ca is not part of the sources.  The
    certificate authority exposes a trusted-root-pool accessor, consumed once
    at construction, and a per-request identity verification that returns an
    identity or an error. *)
Record CA := {
  CertPool : x509_CertPool;
  VerifyHTTPRequest : Request → result string
}.

Definition StatusBadRequest : Z := 400.
Definition StatusUnauthorized : Z := 401.
Definition StatusInternalServerError : Z := 500.
Definition StatusServiceUnavailable : Z := 503.

(** ** The listener *)

Record HTTPStream := {
  closed : bool;
  addr : string;
  accepted : chan;
  dial : net_Dialer;
  certificates : list tls_Certificate;
  ca : CA;
  rootCAs : x509_CertPool
}.

Definition set_closed (b : bool) (hs : HTTPStream) : HTTPStream :=
  {| closed := b; addr := addr hs; accepted := accepted hs; dial := dial hs;
     certificates := certificates hs; ca := ca hs; rootCAs := rootCAs hs |}.

Definition set_Timeout (t : Duration) (d : net_Dialer) : net_Dialer :=
  {| Timeout := t; KeepAlive := KeepAlive d |}.

(** ** The world a call runs in *)

(** What is known of a [net.Conn]: whether it is open, and its deadlines. *)
Record Conn := {
  c_open : bool;
  c_readDeadline : Time;
  c_writeDeadline : Time
}.

(** Calls that leave the process, in the order they happen (newest first). *)
Inductive Event :=
| EvDebug (facility msg : string)
| EvPrintf (msg : string)
| EvTLSDial (d : net_Dialer) (network address : string) (conf : tls_Config)
| EvWrite (c : ConnId) (data : string)
| EvClose (c : ConnId)
| EvHijack (w : nat)
| EvHTTPError (w : nat) (msg : string) (code : Z).

Record State := {
  heap : gmap loc HTTPStream;
  next_loc : loc;
  next_chan : chan;
  counters : gmap string Z;
  conns : gmap ConnId Conn;
  trace : list Event
}.

Definition set_heap (f : gmap loc HTTPStream → gmap loc HTTPStream) (s : State) : State :=
  {| heap := f (heap s); next_loc := next_loc s; next_chan := next_chan s;
     counters := counters s; conns := conns s; trace := trace s |}.

Definition set_counters (f : gmap string Z → gmap string Z) (s : State) : State :=
  {| heap := heap s; next_loc := next_loc s; next_chan := next_chan s;
     counters := f (counters s); conns := conns s; trace := trace s |}.

Definition set_conns (f : gmap ConnId Conn → gmap ConnId Conn) (s : State) : State :=
  {| heap := heap s; next_loc := next_loc s; next_chan := next_chan s;
     counters := counters s; conns := f (conns s); trace := trace s |}.

Definition emit (e : Event) (s : State) : State :=
  {| heap := heap s; next_loc := next_loc s; next_chan := next_chan s;
     counters := counters s; conns := conns s; trace := e :: trace s |}.

(** The network as the process meets it.  Both answers may depend on all
    that happened before. *)
Record Net := {
  net_dial : list Event → net_Dialer → string → string → tls_Config → result ConnId;
  net_write : list Event → ConnId → string → option error
}.

(** ** A monad for state and panics *)

(** [None] is a Go panic (a nil or dangling listener pointer). *)
Definition M (A : Type) : Type := State → option (A * State).

#[global] Instance M_ret : MRet M := λ A a s, Some (a, s).
#[global] Instance M_bind : MBind M := λ A B k m s,
  match m s with
  | Some (a, s') => k a s'
  | None => None
  end.

Definition get_state : M State := λ s, Some (s, s).
Definition modify (f : State → State) : M unit := λ s, Some (tt, f s).
Definition panic {A} : M A := λ _, None.

(** [*h] *)
Definition deref (h : loc) : M HTTPStream :=
  s ← get_state;
  match heap s !! h with
  | Some hs => mret hs
  | None => panic
  end.

(** ** package stats *)

(** Modelled from the spec: package stats is not part of the sources.  It
    keeps named counters, registered at process start and incremented on
    dial, fail, serve and accept events. *)
Definition CounterInit (name : string) : M unit :=
  modify (set_counters (<[name := 0%Z]>)).

Definition counter (s : State) (name : string) : Z :=
  default 0%Z (counters s !! name).

Definition CounterInc (name : string) (n : Z) : M unit :=
  s ← get_state;
  modify (set_counters (<[name := (counter s name + n)%Z]>)).

(** [func init()] *)
Definition init : M unit :=
  _ ← CounterInit "http_dialed";
  _ ← CounterInit "http_failed";
  _ ← CounterInit "http_served";
  CounterInit "http_accepted".

(** ** Methods of the collaborators *)

Definition logger_Debug (facility msg : string) : M unit :=
  modify (emit (EvDebug facility msg)).

Definition fmt_Printf (msg : string) : M unit :=
  modify (emit (EvPrintf msg)).

Definition http_Error (w : ResponseWriter) (msg : string) (code : Z) : M unit :=
  modify (emit (EvHTTPError (rw_id w) msg code)).

Definition new_conn : Conn :=
  {| c_open := true; c_readDeadline := TimeZero; c_writeDeadline := TimeZero |}.

Definition conn_of (s : State) (c : ConnId) : Conn :=
  default new_conn (conns s !! c).

Definition update_conn (c : ConnId) (f : Conn → Conn) : M unit :=
  s ← get_state;
  modify (set_conns (<[c := f (conn_of s c)]>)).

(** [conn.SetDeadline(t)] sets the read and the write deadline. *)
Definition conn_SetDeadline (c : ConnId) (t : Time) : M unit :=
  update_conn c (λ k, {| c_open := c_open k; c_readDeadline := t; c_writeDeadline := t |}).

Definition conn_SetWriteDeadline (c : ConnId) (t : Time) : M unit :=
  update_conn c (λ k, {| c_open := c_open k; c_readDeadline := c_readDeadline k;
                         c_writeDeadline := t |}).

Definition conn_Close (c : ConnId) : M unit :=
  _ ← modify (emit (EvClose c));
  update_conn c (λ k, {| c_open := false; c_readDeadline := c_readDeadline k;
                         c_writeDeadline := c_writeDeadline k |}).

(** [hj.Hijack()]: on success the connection leaves the web server with the
    deadlines the server had set on it. *)
Definition Hijack (w : ResponseWriter) (hj : result ConnId) : M (result ConnId) :=
  _ ← modify (emit (EvHijack (rw_id w)));
  mret hj.

(** ** Reading a trace and the connection table *)

(** The addresses handed to [tls.DialWithDialer], newest first. *)
Definition dialed (tr : list Event) : list string :=
  omap (λ e, match e with EvTLSDial _ _ a _ => Some a | _ => None end) tr.

(** The byte strings handed to [conn.Write], newest first. *)
Definition written (tr : list Event) : list (ConnId * string) :=
  omap (λ e, match e with EvWrite c data => Some (c, data) | _ => None end) tr.

(** The writers whose connection was hijacked, newest first. *)
Definition hijacked (tr : list Event) : list nat :=
  omap (λ e, match e with EvHijack w => Some w | _ => None end) tr.

(** The connection [c] is an open handle of the process. *)
Definition is_open (s : State) (c : ConnId) : bool :=
  match conns s !! c with
  | Some k => c_open k
  | None => false
  end.

(** The address carries a port separator. *)
Definition has_colon (address : string) : Prop :=
  ":"%char ∈ list_ascii_of_string address.

(** The upgrade request as the wire contract of the specification spells it,
    with CRLF line ends. *)
Definition spec_upgrade_request (prefix address : string) : string :=
  "GET " +:+ prefix +:+ "/raft HTTP/1.1" +:+ CR +:+ LF +:+
  "Host: " +:+ address +:+ CR +:+ LF +:+
  "Upgrade: raft-0" +:+ CR +:+ LF +:+ CR +:+ LF.

Section Node.

(** [cluster.CorePrefix], a constant of a package outside the sources. *)
Variable CorePrefix : string.
Variable net : Net.

(** [tls.DialWithDialer]: a failed dial or handshake leaves no connection
    behind; a successful one yields a fresh open connection without
    deadlines. *)
Definition tls_DialWithDialer (d : net_Dialer) (network address : string)
    (conf : tls_Config) : M (result ConnId) :=
  s ← get_state;
  _ ← modify (emit (EvTLSDial d network address conf));
  match net_dial net (trace s) d network address conf with
  | Ok c => _ ← modify (set_conns (<[c := new_conn]>)); mret (Ok c)
  | Err err => mret (Err err)
  end.

(** [conn.Write(data)], keeping only the error of its result. *)
Definition conn_Write (c : ConnId) (data : string) : M (option error) :=
  s ← get_state;
  _ ← modify (emit (EvWrite c data));
  mret (net_write net (trace s) c data).

(** ** HTTPStream *)

Definition NewHTTPStream (addr0 : string) (certs : list tls_Certificate)
    (coreCA : CA) : M (loc * option error) :=
  let d := {| Timeout := 0%Z; KeepAlive := (Second * 25)%Z |} in
  s ← get_state;
  let h := next_loc s in
  let hs := {| closed := false; addr := addr0; accepted := next_chan s;
               dial := d; certificates := certs; ca := coreCA;
               rootCAs := CertPool coreCA |} in
  _ ← modify (λ s, {| heap := <[h := hs]> (heap s); next_loc := S (next_loc s);
                      next_chan := S (next_chan s); counters := counters s;
                      conns := conns s; trace := trace s |});
  mret (h, None).

(** Lines 84-86 of the source: the address Dial goes on with. *)
Definition Dial_address (address : string) : string :=
  if (IndexRune address ":"%char <? 0)%Z then address +:+ ":4934" else address.

(** The request line Dial writes (line 107). *)
Definition Dial_open (address : string) : string :=
  "GET " +:+ CorePrefix +:+ "/raft HTTP/1.1" +:+ LF +:+
  "Host: " +:+ address +:+ LF +:+
  "Upgrade: raft-0" +:+ LF +:+ LF.

Definition Dial (h : loc) (address : string) (timeout : Duration) : M (result ConnId) :=
  hs ← deref h;
  let d := set_Timeout timeout (dial hs) in
  let address := Dial_address address in
  _ ← CounterInc "http_dialed" 1;
  _ ← logger_Debug "httpstream" ("Dialing " +:+ address);
  let conf := {| RootCAs := rootCAs hs; Certificates := certificates hs;
                 ServerName := address; InsecureSkipVerify := true |} in
  r ← tls_DialWithDialer d "tcp" address conf;
  match r with
  | Err err =>
      _ ← CounterInc "http_failed" 1;
      _ ← fmt_Printf ("ERRRRRROR " +:+ err +:+ LF);
      mret (Err err)
  | Ok conn =>
      let open := Dial_open address in
      werr ← conn_Write conn open;
      match werr with
      | Some err =>
          _ ← conn_Close conn;
          _ ← CounterInc "http_failed" 1;
          mret (Err err)
      | None => mret (Ok conn)
      end
  end.

(** Where a call stands when it has run as far as it can on its own. *)
Inductive Accepting :=
| AcceptReturn (r : result ConnId)
| AcceptRecv (ch : chan).

(** Accept up to its channel receive [<-h.accepted]. *)
Definition Accept (h : loc) : M Accepting :=
  hs ← deref h;
  if closed hs then mret (AcceptReturn (Err "Server is shutting down"))
  else
    _ ← CounterInc "http_accepted" 1;
    mret (AcceptRecv (accepted hs)).

Definition Close (h : loc) : M (option error) :=
  hs ← deref h;
  _ ← modify (set_heap (<[h := set_closed true hs]>));
  mret None.

Definition Addr (h : loc) : M loc := mret h.

Definition String_ (h : loc) : M string :=
  hs ← deref h;
  mret (addr hs).

Definition Network (h : loc) : M string := mret "tcp".

Inductive Serving :=
| ServeReturn
| ServeSend (ch : chan) (conn : ConnId).

(** ServeHTTP up to its channel send [h.accepted <- conn]. *)
Definition ServeHTTP (h : loc) (w : ResponseWriter) (r : Request) : M Serving :=
  _ ← CounterInc "http_served" 1;
  hs ← deref h;
  if closed hs then
    _ ← http_Error w "Server is shutting down" StatusServiceUnavailable;
    mret ServeReturn
  else
    let upgrade := Header_Get (Header r) "Upgrade" in
    if negb (String.eqb upgrade "raft-0") then
      _ ← http_Error w "This endpoint is for streaming raft" StatusBadRequest;
      mret ServeReturn
    else
      match VerifyHTTPRequest (ca hs) r with
      | Err err =>
          _ ← http_Error w err StatusUnauthorized;
          mret ServeReturn
      | Ok _ =>
          match Hijacker w with
          | None =>
              _ ← http_Error w "webserver doesn't support hijacking"
                    StatusInternalServerError;
              mret ServeReturn
          | Some hj =>
              r ← Hijack w hj;
              match r with
              | Err err =>
                  _ ← http_Error w err StatusInternalServerError;
                  mret ServeReturn
              | Ok conn =>
                  _ ← conn_SetDeadline conn TimeZero;
                  _ ← conn_SetWriteDeadline conn TimeZero;
                  mret (ServeSend (accepted hs) conn)
              end
          end
      end.

(** ** Goroutines *)

(** A call of one of the listener's methods, as a goroutine starts it. *)
Inductive Call :=
| CallDial (h : loc) (address : string) (timeout : Duration)
| CallAccept (h : loc)
| CallClose (h : loc)
| CallAddr (h : loc)
| CallString (h : loc)
| CallNetwork (h : loc)
| CallServeHTTP (h : loc) (w : ResponseWriter) (r : Request).

Inductive Value :=
| VConn (r : result ConnId)
| VError (e : option error)
| VAddr (a : loc)
| VString (s : string)
| VUnit.

(** A goroutine is about to run a call, is blocked on the unbuffered channel
    (ServeHTTP in [h.accepted <- conn], Accept in [<-h.accepted]), or has
    returned. *)
Inductive Thread :=
| Running (c : Call)
| Sending (ch : chan) (conn : ConnId)
| Receiving (ch : chan)
| Returned (v : Value).

(** A call runs without interruption up to its channel operation. *)
Definition run (c : Call) : M Thread :=
  match c with
  | CallDial h address timeout =>
      r ← Dial h address timeout; mret (Returned (VConn r))
  | CallAccept h =>
      a ← Accept h;
      mret (match a with
            | AcceptReturn r => Returned (VConn r)
            | AcceptRecv ch => Receiving ch
            end)
  | CallClose h =>
      e ← Close h; mret (Returned (VError e))
  | CallAddr h =>
      a ← Addr h; mret (Returned (VAddr a))
  | CallString h =>
      x ← String_ h; mret (Returned (VString x))
  | CallNetwork h =>
      x ← Network h; mret (Returned (VString x))
  | CallServeHTTP h w r =>
      b ← ServeHTTP h w r;
      mret (match b with
            | ServeReturn => Returned VUnit
            | ServeSend ch conn => Sending ch conn
            end)
  end.

(** One completed channel communication: sender, receiver, value. *)
Record Handoff := {
  ho_sender : nat;
  ho_receiver : nat;
  ho_conn : ConnId
}.

(** The process: the shared world, the goroutines, and the history of the
    communications over the handoff channels (newest first). *)
Record Config := {
  world : State;
  pool : list Thread;
  handoffs : list Handoff
}.

(** The scheduler lets goroutine [i] run its call, or lets a sender [i] and a
    receiver [j] blocked on the same channel meet. *)
Inductive Action :=
| Run (i : nat)
| Sync (i j : nat).

Definition step_by (a : Action) (cfg : Config) : option Config :=
  match a with
  | Run i =>
      match pool cfg !! i with
      | Some (Running c) =>
          match run c (world cfg) with
          | Some (t, s') =>
              Some {| world := s'; pool := <[i := t]> (pool cfg);
                      handoffs := handoffs cfg |}
          | None => None
          end
      | _ => None
      end
  | Sync i j =>
      match pool cfg !! i, pool cfg !! j with
      | Some (Sending ch conn), Some (Receiving ch') =>
          if decide (ch = ch') then
            Some {| world := world cfg;
                    pool := <[j := Returned (VConn (Ok conn))]>
                              (<[i := Returned VUnit]> (pool cfg));
                    handoffs := {| ho_sender := i; ho_receiver := j;
                                   ho_conn := conn |} :: handoffs cfg |}
          else None
      | _, _ => None
      end
  end.

Definition step (cfg cfg' : Config) : Prop :=
  ∃ a, step_by a cfg = Some cfg'.

Fixpoint exec (sched : list Action) (cfg : Config) : option Config :=
  match sched with
  | [] => Some cfg
  | a :: sched' =>
      match step_by a cfg with
      | Some cfg' => exec sched' cfg'
      | None => None
      end
  end.

(** What goroutine [i] has sent so far. *)
Definition sent_by (i : nat) (cfg : Config) : list Handoff :=
  filter (λ ho, ho_sender ho = i) (handoffs cfg).

End Node.

(** What a Dial does to the world before the network answers. *)
Definition Dial_config (hs : HTTPStream) (a : string) : tls_Config :=
  {| RootCAs := rootCAs hs; Certificates := certificates hs; ServerName := a;
     InsecureSkipVerify := true |}.

Definition Dial_started (hs : HTTPStream) (address : string)
    (timeout : Duration) (s : State) : State :=
  let a := Dial_address address in
  emit (EvTLSDial (set_Timeout timeout (dial hs)) "tcp" a (Dial_config hs a))
    (emit (EvDebug "httpstream" ("Dialing " +:+ a))
       (set_counters (<["http_dialed" := (counter s "http_dialed" + 1)%Z]>) s)).

Definition Dial_failed (s : State) : State :=
  set_counters (<["http_failed" := (counter s "http_failed" + 1)%Z]>) s.

(** What has become of the connection [conn] that goroutine [i] offered on
    channel [ch] when the process stood at [cfg1]: it is still on offer, or it
    went to one receiver. *)
Definition handoff_state (i : nat) (ch : chan) (conn : ConnId)
    (cfg1 cfg2 : Config) : Prop :=
  (pool cfg2 !! i = Some (Sending ch conn) ∧
   sent_by i cfg2 = sent_by i cfg1) ∨
  (pool cfg2 !! i = Some (Returned VUnit) ∧
   ∃ j, sent_by i cfg2 =
          {| ho_sender := i; ho_receiver := j; ho_conn := conn |}
          :: sent_by i cfg1 ∧
        pool cfg2 !! j = Some (Returned (VConn (Ok conn)))).

(** The world once ServeHTTP has counted its request. *)
Definition ServeHTTP_counted (s : State) : State :=
  set_counters (<["http_served" := (counter s "http_served" + 1)%Z]>) s.

(** The connection [c] with both deadlines cleared. *)
Definition cleared (s : State) (c : ConnId) : Conn :=
  {| c_open := c_open (conn_of s c); c_readDeadline := TimeZero;
     c_writeDeadline := TimeZero |}.

(** Neither a read nor a write deadline is set on the connection. *)
Definition no_deadline (s : State) (c : ConnId) : Prop :=
  c_readDeadline (conn_of s c) = TimeZero ∧
  c_writeDeadline (conn_of s c) = TimeZero.

(** The only way a listener changes: its closed flag is raised. *)
Definition evolves (hs hs' : HTTPStream) : Prop :=
  hs' = hs ∨ hs' = set_closed true hs.

Definition heap_evolves (m m' : gmap loc HTTPStream) : Prop :=
  ∀ h : loc,
    m' !! h = m !! h ∨
    ∃ hs, m !! h = Some hs ∧ m' !! h = Some (set_closed true hs).

(** ** A small cluster node to run the definitions on *)

Definition example_prefix : string := "/core".

(** Every dial and every write succeeds; a dial yields the connection
    numbered by the count of earlier events. *)
Definition net_up : Net :=
  {| net_dial := λ tr _ _ _ _, Ok (length tr);
     net_write := λ _ _ _, None |}.

(** No peer is reachable. *)
Definition net_down : Net :=
  {| net_dial := λ _ _ _ _ _, Err "connection refused";
     net_write := λ _ _ _, None |}.

(** Peers answer the handshake, then every write fails. *)
Definition net_reset : Net :=
  {| net_dial := λ tr _ _ _ _, Ok (length tr);
     net_write := λ _ _ _, Some "broken pipe" |}.

(** A certificate authority that knows the peer "node1" only. *)
Definition example_ca : CA :=
  {| CertPool := ["root"];
     VerifyHTTPRequest := λ r,
       if String.eqb (Header_Get (Header r) "X-Peer") "node1" then Ok "node1"
       else Err "unknown peer" |}.

Definition empty_state : State :=
  {| heap := ∅; next_loc := 0; next_chan := 0; counters := ∅; conns := ∅;
     trace := [] |}.

(** The world once [init] has run. *)
Definition example_init : State :=
  match init empty_state with
  | Some (_, s) => s
  | None => empty_state
  end.

(** The world once the node has built its listener on top of that. *)
Definition example_world : State :=
  match NewHTTPStream "10.0.0.1:4934" ["cert"] example_ca example_init with
  | Some (_, s) => s
  | None => example_init
  end.

(** The listener of the node; its pointer is 0. *)
Definition example_listener : HTTPStream :=
  {| closed := false; addr := "10.0.0.1:4934"; accepted := 0;
     dial := {| Timeout := 0%Z; KeepAlive := 25000000000%Z |};
     certificates := ["cert"]; ca := example_ca; rootCAs := ["root"] |}.

(** The world once the listener has been closed. *)
Definition example_closed : State :=
  match Close 0 example_world with
  | Some (_, s) => s
  | None => example_world
  end.

(** The connection 7 as the web server holds it, with its deadlines set. *)
Definition example_served : State :=
  set_conns (<[7 := {| c_open := true; c_readDeadline := TimeAt 30;
                       c_writeDeadline := TimeAt 30 |}]>) example_world.

Definition example_request : Request :=
  {| Header := {[ "Upgrade" := ["raft-0"]; "X-Peer" := ["node1"] ]} |}.

Definition example_stranger : Request :=
  {| Header := {[ "Upgrade" := ["raft-0"]; "X-Peer" := ["mallory"] ]} |}.

Definition example_writer : ResponseWriter :=
  {| rw_id := 1; Hijacker := Some (Ok 7) |}.


(** One goroutine calls Accept, another calls Close. *)
Definition example_race : Config :=
  {| world := example_world;
     pool := [Running (CallAccept 0); Running (CallClose 0)];
     handoffs := [] |}.

(** The same process once Accept has run up to its receive and Close has
    returned. *)
Definition example_race_end : Config :=
  {| world := set_counters (<["http_accepted" := 1%Z]>) example_closed;
     pool := [Receiving 0; Returned (VError None)];
     handoffs := [] |}.

(** A peer's request being served while a goroutine waits in Accept. *)
Definition example_inbound : Config :=
  {| world := example_served;
     pool := [Running (CallServeHTTP 0 example_writer example_request);
              Receiving 0];
     handoffs := [] |}.

(** An Accept called after the listener was closed. *)
Definition example_shutdown : Config :=
  {| world := example_closed; pool := [Running (CallAccept 0)];
     handoffs := [] |}.

(** ** Counting and well-formedness *)

(** The responses written with [http.Error], newest first. *)
Definition responses (tr : list Event) : list (nat * string * Z) :=
  omap (λ e, match e with
             | EvHTTPError w msg code => Some (w, msg, code)
             | _ => None
             end) tr.

(** Listeners are allocated below [next_loc], their channels below
    [next_chan], and no two listeners share a handoff channel. *)
Definition listeners_wf (s : State) : Prop :=
  (∀ h hs, heap s !! h = Some hs → h < next_loc s ∧ accepted hs < next_chan s) ∧
  (∀ h1 h2 hs1 hs2,
     heap s !! h1 = Some hs1 → heap s !! h2 = Some hs2 →
     accepted hs1 = accepted hs2 → h1 = h2).

Definition is_ServeHTTP (t : Thread) : bool :=
  match t with
  | Running (CallServeHTTP _ _ _) => true
  | _ => false
  end.

Definition is_Dial (t : Thread) : bool :=
  match t with
  | Running (CallDial _ _ _) => true
  | _ => false
  end.

Definition is_Receiving (t : Thread) : bool :=
  match t with
  | Receiving _ => true
  | _ => false
  end.

(** How many goroutines of the pool satisfy [f]. *)
Fixpoint count_threads (f : Thread → bool) (p : list Thread) : nat :=
  match p with
  | [] => 0
  | t :: p' => (if f t then 1 else 0) + count_threads f p'
  end.

(** ** package plugins *)

Section Plugins.

(** [interface{}]: the values an agent reports are of any type. *)
Variable Any : Type.

(** [AgentResult] is a Go map, hence a reference: [None] is the nil map, and
    [Some l] points to the map stored at [l]. *)
Definition AgentResult := option loc.

(** The maps of the process. *)
Record Maps := {
  maps : gmap loc (gmap string Any);
  next_map : loc
}.

Definition NewAgentResult (ms : Maps) : AgentResult * Maps :=
  (Some (next_map ms),
   {| maps := <[next_map ms := ∅]> (maps ms); next_map := S (next_map ms) |}).

(** [a[key] = value]; the assignment panics on the nil map. *)
Definition AddValue (a : AgentResult) (key : string) (value : Any)
    (ms : Maps) : option Maps :=
  match a with
  | None => None
  | Some l =>
      match maps ms !! l with
      | Some m =>
          Some {| maps := <[l := <[key := value]> m]> (maps ms);
                  next_map := next_map ms |}
      | None => None
      end
  end.

(** Go's index expression [v, ok := a[key]]; reading the nil map finds
    nothing. *)
Definition AgentResult_index (a : AgentResult) (key : string) (ms : Maps) : option Any :=
  match a with
  | None => None
  | Some l =>
      match maps ms !! l with
      | Some m => m !! key
      | None => None
      end
  end.

(** Every map of the store was allocated. *)
Definition maps_wf (ms : Maps) : Prop :=
  ∀ l m, maps ms !! l = Some m → l < next_map ms.

End Plugins.

Arguments maps {Any} _.
Arguments next_map {Any} _.
Arguments NewAgentResult {Any} ms.
Arguments AddValue {Any} a key value ms.
Arguments AgentResult_index {Any} a key ms.
Arguments maps_wf {Any} ms.

(** ** More of the example node *)

(** A request without the upgrade header. *)
Definition example_plain_request : Request :=
  {| Header := {[ "X-Peer" := ["node1"] ]} |}.

(** A writer that cannot be hijacked, and one whose hijack fails. *)
Definition example_plain_writer : ResponseWriter :=
  {| rw_id := 2; Hijacker := None |}.

Definition example_failing_writer : ResponseWriter :=
  {| rw_id := 3; Hijacker := Some (Err "connection already hijacked") |}.

(** A node whose goroutines dial, serve, accept and close. *)
Definition example_busy : Config :=
  {| world := example_served;
     pool := [Running (CallServeHTTP 0 example_writer example_request);
              Running (CallAccept 0);
              Running (CallDial 0 "10.0.0.5" 5%Z);
              Running (CallServeHTTP 0 example_plain_writer example_stranger);
              Running (CallClose 0)];
     handoffs := [] |}.

Definition example_schedule : list Action :=
  [Run 1; Run 0; Run 2; Sync 0 1; Run 4; Run 3].

Definition example_busy_end : Config :=
  match exec example_prefix net_reset example_schedule example_busy with
  | Some cfg => cfg
  | None => example_busy
  end.

(** The race once Accept has run up to its receive. *)
Definition example_blocked : Config :=
  {| world := set_counters (<["http_accepted" := 1%Z]>) example_world;
     pool := [Receiving 0; Running (CallClose 0)];
     handoffs := [] |}.

(** A second listener next to the first. *)
Definition example_two : State :=
  match NewHTTPStream "10.0.0.1:4935" ["cert"] example_ca example_world with
  | Some (_, s) => s
  | None => example_world
  end.



(** An agent's result holding one value. *)
Definition example_maps : Maps Z :=
  {| maps := {[ 0 := {[ "load" := 3%Z ]} ]}; next_map := 1 |}.

(** The process once goroutine [i], blocked in the send of [conn], and
    goroutine [j], blocked in the receive, have met at [cfg]. *)
Definition delivered (i j : nat) (conn : ConnId) (cfg : Config) : Config :=
  {| world := world cfg;
     pool := <[j := Returned (VConn (Ok conn))]>
               (<[i := Returned VUnit]> (pool cfg));
     handoffs := {| ho_sender := i; ho_receiver := j; ho_conn := conn |}
                 :: handoffs cfg |}.

(** A peer's request is served, then the listener is closed, and only then
    a goroutine calls Accept. *)
Definition example_late_accept : Config :=
  {| world := example_served;
     pool := [Running (CallServeHTTP 0 example_writer example_request);
              Running (CallClose 0);
              Running (CallAccept 0)];
     handoffs := [] |}.

(** * Properties *)

Ltac unfold_m :=
  cbv [mbind M_bind mret M_ret get_state modify panic deref CounterInc
       CounterInit logger_Debug fmt_Printf http_Error update_conn
       conn_SetDeadline conn_SetWriteDeadline conn_Close Hijack
       tls_DialWithDialer conn_Write].

Ltac simpl_state :=
  cbn [trace emit set_counters set_conns set_heap heap counters conns
       next_loc next_chan].

(** ** The default port *)

Lemma IndexByte_lower s c : (-1 ≤ IndexByte s c)%Z.
Proof.
  induction s as [|a s IH]; cbn; [lia|].
  destruct (Ascii.eqb a c); [lia|].
  destruct (IndexByte s c <? 0)%Z eqn:E; lia.
Qed.

Lemma IndexByte_absent s c :
  (IndexByte s c <? 0)%Z = true ↔ c ∉ list_ascii_of_string s.
Proof.
  induction s as [|a s IH]; cbn.
  - split; [intros _; apply not_elem_of_nil | reflexivity].
  - destruct (Ascii.eqb_spec a c) as [->|Hne].
    + split; [discriminate | intros H; exfalso; apply H; left].
    + rewrite not_elem_of_cons, <- IH.
      pose proof (IndexByte_lower s c).
      destruct (IndexByte s c <? 0)%Z eqn:E.
      * split; [intros _; split; [congruence | reflexivity] | reflexivity].
      * apply Z.ltb_ge in E.
        split; [intros H1; apply Z.ltb_lt in H1; lia | intros [_ ?]; discriminate].
Qed.

Lemma Dial_address_without_port address :
  ¬ has_colon address → Dial_address address = address +:+ ":4934".
Proof.
  intros H. unfold Dial_address, IndexRune.
  apply IndexByte_absent in H. by rewrite H.
Qed.

Lemma Dial_address_with_port address :
  has_colon address → Dial_address address = address.
Proof.
  intros H. unfold Dial_address, IndexRune.
  destruct (IndexByte address ":" <? 0)%Z eqn:E; [|done].
  apply IndexByte_absent in E. contradiction.
Qed.

Section Dialing.

Variable prefix : string.
Variable net : Net.

Lemma Dial_run (h : loc) (hs : HTTPStream) (address : string)
    (timeout : Duration) (s : State) :
  heap s !! h = Some hs →
  let a := Dial_address address in
  let s1 := Dial_started hs address timeout s in
  Dial prefix net h address timeout s =
  match net_dial net (EvDebug "httpstream" ("Dialing " +:+ a) :: trace s)
          (set_Timeout timeout (dial hs)) "tcp" a (Dial_config hs a) with
  | Err e =>
      Some (Err e, emit (EvPrintf ("ERRRRRROR " +:+ e +:+ LF)) (Dial_failed s1))
  | Ok c =>
      let s2 := emit (EvWrite c (Dial_open prefix a))
                  (set_conns (<[c := new_conn]>) s1) in
      match net_write net (trace s1) c (Dial_open prefix a) with
      | None => Some (Ok c, s2)
      | Some e =>
          Some (Err e,
                Dial_failed
                  (set_conns (<[c := {| c_open := false;
                                        c_readDeadline := TimeZero;
                                        c_writeDeadline := TimeZero |}]>)
                     (emit (EvClose c) s2)))
      end
  end.
Proof.
  intros Hh a s1. unfold Dial. unfold_m. rewrite Hh. simpl_state.
  fold a. unfold Dial_config.
  destruct (net_dial _ _ _ _ _ _) as [c|e]; [|reflexivity].
  simpl_state. destruct (net_write _ _ _ _) as [e|]; [|reflexivity].
  unfold conn_of. simpl_state. rewrite lookup_insert_eq. reflexivity.
Qed.

Lemma Dial_panics (h : loc) (address : string) (timeout : Duration) (s : State) :
  heap s !! h = None → Dial prefix net h address timeout s = None.
Proof. intros Hh. unfold Dial. unfold_m. by rewrite Hh. Qed.

Lemma Dial_heap (h : loc) (address : string) (timeout : Duration)
    (s s' : State) (r : result ConnId) :
  Dial prefix net h address timeout s = Some (r, s') → heap s' = heap s.
Proof.
  destruct (heap s !! h) as [hs|] eqn:Hh.
  - rewrite (Dial_run _ _ _ _ _ Hh). cbv zeta.
    repeat case_match; by intros [= <- <-].
  - by rewrite (Dial_panics _ _ _ _ Hh).
Qed.


(** C5: Dial hands exactly one address to the TLS dialer; it is the given
    address followed by ":4934" when the address has no ':' in it, and the
    given address itself when it has one. *)
Theorem Dial_default_port (h : loc) (hs : HTTPStream) (address : string)
    (timeout : Duration) (s : State) :
  heap s !! h = Some hs →
  ∃ r s' target,
    Dial prefix net h address timeout s = Some (r, s') ∧
    dialed (trace s') = target :: dialed (trace s) ∧
    (¬ has_colon address → target = address +:+ ":4934") ∧
    (has_colon address → target = address).
Proof.
  intros Hh. rewrite (Dial_run _ _ _ _ _ Hh). cbv zeta.
  assert (Hp := Dial_address_without_port address).
  assert (Hq := Dial_address_with_port address).
  destruct (net_dial _ _ _ _ _ _) as [c|e];
    [destruct (net_write _ _ _ _) as [e|]|];
    eexists _, _, (Dial_address address);
    (split; [reflexivity|]); (split; [reflexivity|]); split; assumption.
Qed.


(** C10: a Dial leaves the heap of listeners as it found it, so no field of
    the listener changes; the timeout of the caller reaches the TLS dialer
    in a copy of the stored dialer that keeps its keep-alive interval. *)
Theorem Dial_frame (h : loc) (hs : HTTPStream) (address : string)
    (timeout : Duration) (s : State) :
  heap s !! h = Some hs →
  ∃ r s' evs,
    Dial prefix net h address timeout s = Some (r, s') ∧
    heap s' = heap s ∧
    heap s' !! h = Some hs ∧
    trace s' = evs ++
      EvTLSDial {| Timeout := timeout; KeepAlive := KeepAlive (dial hs) |}
        "tcp" (Dial_address address) (Dial_config hs (Dial_address address))
      :: EvDebug "httpstream" ("Dialing " +:+ Dial_address address) :: trace s.
Proof.
  intros Hh. rewrite (Dial_run _ _ _ _ _ Hh). cbv zeta.
  destruct (net_dial _ _ _ _ _ _) as [c|e];
    [destruct (net_write _ _ _ _) as [e|]|].
  - eexists _, _, [_; _]. by repeat split.
  - eexists _, _, [_]. by repeat split.
  - eexists _, _, [_]. by repeat split.
Qed.

(** C4 as the code has it: when the TLS dial succeeds with connection [c],
    the one thing Dial does next is to write to [c] the request
    [GET <prefix>/raft HTTP/1.1], [Host: <address>], [Upgrade: raft-0] and an
    empty line, each ended by a single line feed, where the address is the
    one dialed; when the write succeeds Dial returns [c] at once. *)
Theorem Dial_writes_upgrade_request (h : loc) (hs : HTTPStream)
    (address : string) (timeout : Duration) (s : State) (c : ConnId) :
  heap s !! h = Some hs →
  net_dial net
    (EvDebug "httpstream" ("Dialing " +:+ Dial_address address) :: trace s)
    (set_Timeout timeout (dial hs)) "tcp" (Dial_address address)
    (Dial_config hs (Dial_address address)) = Ok c →
  let a := Dial_address address in
  let request := "GET " +:+ prefix +:+ "/raft HTTP/1.1" +:+ LF +:+
                 "Host: " +:+ a +:+ LF +:+ "Upgrade: raft-0" +:+ LF +:+ LF in
  ∃ r s',
    Dial prefix net h address timeout s = Some (r, s') ∧
    written (trace s') = (c, request) :: written (trace s) ∧
    (∀ c', r = Ok c' →
       c' = c ∧
       trace s' = EvWrite c request :: trace (Dial_started hs address timeout s)).
Proof.
  intros Hh Hd a request. rewrite (Dial_run _ _ _ _ _ Hh). cbv zeta.
  rewrite Hd. subst a request. unfold Dial_open.
  destruct (net_write _ _ _ _) as [e|]; eexists _, _;
    (split; [reflexivity|]); (split; [reflexivity|]).
  - intros c' [=].
  - by intros c' [= ->].
Qed.

End Dialing.

(** ** Serving a request *)

Lemma ServeHTTP_run (h : loc) (hs : HTTPStream) (w : ResponseWriter)
    (r : Request) (s : State) :
  heap s !! h = Some hs →
  let s1 := ServeHTTP_counted s in
  let reject msg code := Some (ServeReturn, emit (EvHTTPError (rw_id w) msg code) s1) in
  ServeHTTP h w r s =
  if closed hs then reject "Server is shutting down" StatusServiceUnavailable
  else if negb (String.eqb (Header_Get (Header r) "Upgrade") "raft-0") then
    reject "This endpoint is for streaming raft" StatusBadRequest
  else
    match VerifyHTTPRequest (ca hs) r with
    | Err e => reject e StatusUnauthorized
    | Ok _ =>
        match Hijacker w with
        | None => reject "webserver doesn't support hijacking" StatusInternalServerError
        | Some (Err e) =>
            Some (ServeReturn,
                  emit (EvHTTPError (rw_id w) e StatusInternalServerError)
                    (emit (EvHijack (rw_id w)) s1))
        | Some (Ok conn) =>
            Some (ServeSend (accepted hs) conn,
                  set_conns (<[conn := cleared s conn]>)
                    (emit (EvHijack (rw_id w)) s1))
        end
    end.
Proof.
  intros Hh s1 reject. unfold ServeHTTP. unfold_m. simpl_state. rewrite Hh.
  destruct (closed hs); [reflexivity|].
  destruct (negb _); [reflexivity|].
  destruct (VerifyHTTPRequest _ _); [|reflexivity].
  destruct (Hijacker w) as [[conn|e]|]; [|reflexivity..].
  simpl_state. unfold conn_of. simpl_state. rewrite lookup_insert_eq. cbn.
  do 2 f_equal. unfold set_conns, ServeHTTP_counted, cleared, conn_of.
  simpl_state. cbn. f_equal. apply insert_insert_eq.
Qed.

(** C6: a request that meets an open listener and carries the upgrade token
    but fails the CA's verification with error [e] is answered
    [401 Unauthorized] with [e] as the body and ServeHTTP returns; nothing is
    hijacked, no connection and no listener is touched, and the goroutine
    never reaches the send on the handoff channel. *)
Theorem ServeHTTP_unauthorized (prefix : string) (net : Net) (h : loc)
    (hs : HTTPStream) (w : ResponseWriter) (r : Request) (s : State) (e : error) :
  heap s !! h = Some hs →
  closed hs = false →
  Header_Get (Header r) "Upgrade" = "raft-0" →
  VerifyHTTPRequest (ca hs) r = Err e →
  ∃ s',
    ServeHTTP h w r s = Some (ServeReturn, s') ∧
    run prefix net (CallServeHTTP h w r) s = Some (Returned VUnit, s') ∧
    trace s' = EvHTTPError (rw_id w) e 401 :: trace s ∧
    hijacked (trace s') = hijacked (trace s) ∧
    conns s' = conns s ∧
    heap s' = heap s.
Proof.
  intros Hh Hc Hu Hv. unfold run. cbv [mbind M_bind mret M_ret].
  rewrite (ServeHTTP_run _ _ _ _ _ Hh). cbv zeta.
  rewrite Hc, Hu, Hv. cbn. eexists. by repeat split.
Qed.

(** ** How the listeners change while goroutines run *)

Lemma heap_evolves_refl (m : gmap loc HTTPStream) : heap_evolves m m.
Proof. intros h. by left. Qed.

Lemma heap_evolves_trans (m1 m2 m3 : gmap loc HTTPStream) :
  heap_evolves m1 m2 → heap_evolves m2 m3 → heap_evolves m1 m3.
Proof.
  intros H12 H23 h.
  destruct (H12 h) as [E12|(hs & E1 & E2)], (H23 h) as [E23|(hs' & E2' & E3)].
  - left. congruence.
  - right. exists hs'. split; congruence.
  - right. exists hs. split; congruence.
  - right. exists hs. split; [done|].
    rewrite E3. rewrite E2 in E2'. by injection E2' as <-.
Qed.

Lemma heap_evolves_lookup (m m' : gmap loc HTTPStream) (h : loc) (hs : HTTPStream) :
  heap_evolves m m' → m !! h = Some hs →
  ∃ hs', m' !! h = Some hs' ∧ evolves hs hs'.
Proof.
  intros H Hh. destruct (H h) as [E|(hs0 & E1 & E2)].
  - exists hs. split; [congruence | by left].
  - exists (set_closed true hs0). split; [done|]. right. congruence.
Qed.

Lemma heap_evolves_lookup_inv (m m' : gmap loc HTTPStream) (h : loc)
    (hs' : HTTPStream) :
  heap_evolves m m' → m' !! h = Some hs' →
  ∃ hs, m !! h = Some hs ∧ evolves hs hs'.
Proof.
  intros H Hh. destruct (H h) as [E|(hs0 & E1 & E2)].
  - exists hs'. split; [congruence | by left].
  - exists hs0. split; [done|]. right. congruence.
Qed.

Lemma evolves_closed (hs hs' : HTTPStream) :
  evolves hs hs' → closed hs = true → closed hs' = true.
Proof. by intros [->| ->]. Qed.

Lemma evolves_fields (hs hs' : HTTPStream) :
  evolves hs hs' →
  addr hs' = addr hs ∧ accepted hs' = accepted hs ∧ dial hs' = dial hs ∧
  certificates hs' = certificates hs ∧ ca hs' = ca hs ∧ rootCAs hs' = rootCAs hs.
Proof. by intros [->| ->]. Qed.

Section Goroutines.

Variable prefix : string.
Variable net : Net.

Lemma ServeHTTP_panics (h : loc) (w : ResponseWriter) (r : Request) (s : State) :
  heap s !! h = None → ServeHTTP h w r s = None.
Proof. intros Hh. unfold ServeHTTP. unfold_m. simpl_state. by rewrite Hh. Qed.

Lemma ServeHTTP_heap (h : loc) (w : ResponseWriter) (r : Request)
    (s s' : State) (b : Serving) :
  ServeHTTP h w r s = Some (b, s') → heap s' = heap s.
Proof.
  destruct (heap s !! h) as [hs|] eqn:Hh.
  - rewrite (ServeHTTP_run _ _ _ _ _ Hh). cbv zeta.
    repeat case_match; by intros [= <- <-].
  - by rewrite (ServeHTTP_panics _ _ _ _ Hh).
Qed.

Lemma run_heap (c : Call) (s s' : State) (t : Thread) :
  run prefix net c s = Some (t, s') → heap_evolves (heap s) (heap s').
Proof.
  destruct c as [h address timeout|h|h|h|h|h|h w r]; unfold run;
    cbv [mbind M_bind mret M_ret].
  - destruct (Dial prefix net h address timeout s) as [[r s1]|] eqn:E; [|done].
    intros [= <- <-]. rewrite (Dial_heap _ _ _ _ _ _ _ _ E).
    apply heap_evolves_refl.
  - unfold Accept. unfold_m. destruct (heap s !! h) as [hs|]; [|done].
    destruct (closed hs); intros [= <- <-]; apply heap_evolves_refl.
  - unfold Close. unfold_m. destruct (heap s !! h) as [hs|] eqn:Hh; [|done].
    intros [= <- <-]. simpl_state. intros h'.
    destruct (decide (h = h')) as [<-|Hne].
    + right. exists hs. by rewrite lookup_insert_eq.
    + left. by rewrite lookup_insert_ne.
  - unfold Addr. unfold_m. intros [= <- <-]. apply heap_evolves_refl.
  - unfold String_. unfold_m. destruct (heap s !! h) as [hs|]; [|done].
    intros [= <- <-]. apply heap_evolves_refl.
  - unfold Network. unfold_m. intros [= <- <-]. apply heap_evolves_refl.
  - destruct (ServeHTTP h w r s) as [[b s1]|] eqn:E; [|done].
    intros [= <- <-]. rewrite (ServeHTTP_heap _ _ _ _ _ _ E).
    apply heap_evolves_refl.
Qed.

Lemma step_by_heap (a : Action) (cfg cfg' : Config) :
  step_by prefix net a cfg = Some cfg' →
  heap_evolves (heap (world cfg)) (heap (world cfg')).
Proof.
  destruct a as [i|i j]; cbn.
  - destruct (pool cfg !! i) as [[c| | |]|]; try done.
    destruct (run prefix net c (world cfg)) as [[t s']|] eqn:E; [|done].
    intros [= <-]. cbn. by eapply run_heap.
  - destruct (pool cfg !! i) as [[|ch conn| |]|]; try done.
    destruct (pool cfg !! j) as [[| |ch'|]|]; try done.
    destruct (decide (ch = ch')); [|done].
    intros [= <-]. apply heap_evolves_refl.
Qed.

Lemma steps_heap (cfg cfg' : Config) :
  rtc (step prefix net) cfg cfg' →
  heap_evolves (heap (world cfg)) (heap (world cfg')).
Proof.
  induction 1 as [cfg|cfg cfg1 cfg' [a Ha] _ IH].
  - apply heap_evolves_refl.
  - eapply heap_evolves_trans; [by eapply step_by_heap | exact IH].
Qed.

Lemma exec_steps (sched : list Action) (cfg cfg' : Config) :
  exec prefix net sched cfg = Some cfg' → rtc (step prefix net) cfg cfg'.
Proof.
  revert cfg. induction sched as [|a sched IH]; intros cfg; cbn.
  - intros [= <-]. apply rtc_refl.
  - destruct (step_by prefix net a cfg) as [cfg1|] eqn:E; [|done].
    intros H. eapply rtc_l; [by exists a | by apply IH].
Qed.

Lemma run_not_running (c c' : Call) (s s' : State) :
  run prefix net c s ≠ Some (Running c', s').
Proof.
  destruct c; unfold run; cbv [mbind M_bind mret M_ret];
    repeat case_match; congruence.
Qed.

Lemma run_sending (c : Call) (s s' : State) (ch : chan) (conn : ConnId) :
  run prefix net c s = Some (Sending ch conn, s') →
  ∃ h w r hs,
    c = CallServeHTTP h w r ∧ heap s !! h = Some hs ∧ closed hs = false ∧
    accepted hs = ch.
Proof.
  destruct c as [h address timeout|h|h|h|h|h|h w r]; unfold run;
    cbv [mbind M_bind mret M_ret];
    try (repeat case_match; congruence).
  destruct (heap s !! h) as [hs|] eqn:Hh.
  - rewrite (ServeHTTP_run _ _ _ _ _ Hh). cbv zeta. intros H.
    exists h, w, r, hs. split; [done|]. split; [done|].
    destruct (closed hs); [by repeat case_match|]. split; [done|].
    repeat case_match; congruence.
  - by rewrite (ServeHTTP_panics _ _ _ _ Hh).
Qed.

Lemma step_by_running (a : Action) (cfg cfg' : Config) (i : nat) (c : Call) :
  step_by prefix net a cfg = Some cfg' →
  pool cfg' !! i = Some (Running c) → pool cfg !! i = Some (Running c).
Proof.
  destruct a as [k|k j]; cbn.
  - destruct (pool cfg !! k) as [[c0| | |]|] eqn:Hk; try done.
    destruct (run prefix net c0 (world cfg)) as [[t s']|] eqn:E; [|done].
    intros [= <-]. cbn. destruct (decide (k = i)) as [->|Hne].
    + rewrite list_lookup_insert_eq by (by eapply lookup_lt_Some).
      intros [= ->]. by apply run_not_running in E.
    + by rewrite list_lookup_insert_ne.
  - destruct (pool cfg !! k) as [[|ch conn| |]|] eqn:Hk; try done.
    destruct (pool cfg !! j) as [[| |ch'|]|] eqn:Hj; try done.
    destruct (decide (ch = ch')); [|done].
    intros [= <-]. cbn.
    destruct (decide (j = i)) as [->|Hji].
    + rewrite list_lookup_insert_eq; [done|].
      rewrite length_insert. by eapply lookup_lt_Some.
    + rewrite list_lookup_insert_ne by done.
      destruct (decide (k = i)) as [->|Hki].
      * rewrite list_lookup_insert_eq by (by eapply lookup_lt_Some). done.
      * by rewrite list_lookup_insert_ne.
Qed.

Lemma step_by_sending (a : Action) (cfg cfg' : Config) (i : nat)
    (ch : chan) (conn : ConnId) :
  step_by prefix net a cfg = Some cfg' →
  pool cfg' !! i = Some (Sending ch conn) →
  pool cfg !! i = Some (Sending ch conn) ∨
  ∃ h w r hs,
    pool cfg !! i = Some (Running (CallServeHTTP h w r)) ∧
    heap (world cfg) !! h = Some hs ∧ closed hs = false ∧ accepted hs = ch.
Proof.
  destruct a as [k|k j]; cbn.
  - destruct (pool cfg !! k) as [[c0| | |]|] eqn:Hk; try done.
    destruct (run prefix net c0 (world cfg)) as [[t s']|] eqn:E; [|done].
    intros [= <-]. cbn. destruct (decide (k = i)) as [->|Hne].
    + rewrite list_lookup_insert_eq by (by eapply lookup_lt_Some).
      intros [= ->]. right.
      destruct (run_sending _ _ _ _ _ E) as (h & w & r & hs & -> & ?).
      by exists h, w, r, hs.
    + rewrite list_lookup_insert_ne by done. by left.
  - destruct (pool cfg !! k) as [[|ch0 conn0| |]|] eqn:Hk; try done.
    destruct (pool cfg !! j) as [[| |ch'|]|] eqn:Hj; try done.
    destruct (decide (ch0 = ch')); [|done].
    intros [= <-]. cbn.
    destruct (decide (j = i)) as [->|Hji].
    + rewrite list_lookup_insert_eq; [done|].
      rewrite length_insert. by eapply lookup_lt_Some.
    + rewrite list_lookup_insert_ne by done.
      destruct (decide (k = i)) as [->|Hki].
      * rewrite list_lookup_insert_eq by (by eapply lookup_lt_Some). done.
      * rewrite list_lookup_insert_ne by done. by left.
Qed.

(** C9: along every run of the goroutines (calls of Dial, Accept, Close,
    Addr, String, Network and ServeHTTP, in any interleaving) a listener
    stays allocated, a closed flag that is true stays true, the address
    field keeps its value, and a goroutine found blocked in the send on the
    handoff channel either was so at the start or is a ServeHTTP call whose
    listener was not yet closed at the start: no call that reads a true
    closed flag goes on to push a connection. *)
Theorem invariants_preserved (cfg cfg' : Config) :
  rtc (step prefix net) cfg cfg' →
  (∀ h hs, heap (world cfg) !! h = Some hs →
     ∃ hs', heap (world cfg') !! h = Some hs' ∧
            (closed hs = true → closed hs' = true) ∧
            addr hs' = addr hs) ∧
  (∀ i ch conn, pool cfg' !! i = Some (Sending ch conn) →
     pool cfg !! i = Some (Sending ch conn) ∨
     ∃ h w r hs,
       pool cfg !! i = Some (Running (CallServeHTTP h w r)) ∧
       heap (world cfg) !! h = Some hs ∧ closed hs = false).
Proof.
  intros Hsteps. split.
  - intros h hs Hh.
    destruct (heap_evolves_lookup _ _ _ _ (steps_heap _ _ Hsteps) Hh)
      as (hs' & Hh' & Hev).
    exists hs'. split; [done|]. split.
    + by apply evolves_closed.
    + by apply evolves_fields.
  - induction Hsteps as [cfg|cfg cfg1 cfg' [a Ha] _ IH]; [by left|].
    intros i ch conn Hi.
    destruct (IH i ch conn Hi) as [Hs|(h & w & r & hs1 & Hr & Hh1 & Hc1)].
    + destruct (step_by_sending _ _ _ _ _ _ Ha Hs)
        as [?|(h & w & r & hs & ? & ? & ? & _)]; [by left|right].
      by exists h, w, r, hs.
    + right. exists h, w, r.
      destruct (heap_evolves_lookup_inv _ _ _ _ (step_by_heap _ _ _ Ha) Hh1)
        as (hs & Hh & Hev).
      exists hs. split; [by eapply step_by_running|]. split; [done|].
      destruct (closed hs) eqn:Hc; [|done].
      by rewrite (evolves_closed _ _ Hev Hc) in Hc1.
Qed.

(** ** Accept and Close *)

Lemma Close_closes (h : loc) (s s' : State) (e : option error) :
  Close h s = Some (e, s') →
  ∃ hs, heap s' !! h = Some hs ∧ closed hs = true.
Proof.
  unfold Close. unfold_m. destruct (heap s !! h) as [hs|]; [|done].
  intros [= <- <-]. exists (set_closed true hs). simpl_state.
  by rewrite lookup_insert_eq.
Qed.

Lemma Accept_closed (h : loc) (hs : HTTPStream) (s : State) :
  heap s !! h = Some hs → closed hs = true →
  Accept h s = Some (AcceptReturn (Err "Server is shutting down"), s).
Proof. intros Hh Hc. unfold Accept. unfold_m. by rewrite Hh, Hc. Qed.

(** C2: once a Close of the listener has returned, then whatever the
    goroutines do afterwards, a call of Accept returns the error
    "Server is shutting down" in its first step: it does not reach the
    channel receive, returns no connection and leaves the world as it is. *)
Theorem Accept_after_Close (h : loc) (s s1 : State) (e : option error)
    (p : list Thread) (ho : list Handoff) (cfg' : Config) :
  Close h s = Some (e, s1) →
  rtc (step prefix net) {| world := s1; pool := p; handoffs := ho |} cfg' →
  Accept h (world cfg') =
    Some (AcceptReturn (Err "Server is shutting down"), world cfg') ∧
  run prefix net (CallAccept h) (world cfg') =
    Some (Returned (VConn (Err "Server is shutting down")), world cfg').
Proof.
  intros Hclose Hsteps.
  destruct (Close_closes _ _ _ _ Hclose) as (hs & Hh & Hc).
  destruct (heap_evolves_lookup _ _ _ _ (steps_heap _ _ Hsteps) Hh)
    as (hs' & Hh' & Hev).
  assert (HA := Accept_closed _ _ _ Hh' (evolves_closed _ _ Hev Hc)).
  split; [done|]. unfold run. cbv [mbind M_bind mret M_ret]. by rewrite HA.
Qed.

(** ** The address of the listener *)

Lemma NewHTTPStream_run (addr0 : string) (certs : list tls_Certificate)
    (coreCA : CA) (s s1 : State) (h : loc) (e : option error) :
  NewHTTPStream addr0 certs coreCA s = Some ((h, e), s1) →
  ∃ hs, heap s1 !! h = Some hs ∧ addr hs = addr0 ∧ closed hs = false.
Proof.
  unfold NewHTTPStream. unfold_m. intros [= <- <- <-]. simpl_state.
  eexists. by rewrite lookup_insert_eq.
Qed.

(** C8 as the code has it: Addr returns the listener itself, the very
    pointer it was called on.  Whatever the goroutines do after the listener
    was built, String on that value returns the address given to
    NewHTTPStream and Network returns "tcp", and neither call changes the
    world. *)
Theorem Addr_is_the_listener (addr0 : string) (certs : list tls_Certificate)
    (coreCA : CA) (s s1 : State) (h : loc) (e : option error)
    (p : list Thread) (ho : list Handoff) (cfg' : Config) :
  NewHTTPStream addr0 certs coreCA s = Some ((h, e), s1) →
  rtc (step prefix net) {| world := s1; pool := p; handoffs := ho |} cfg' →
  Addr h (world cfg') = Some (h, world cfg') ∧
  String_ h (world cfg') = Some (addr0, world cfg') ∧
  Network h (world cfg') = Some ("tcp", world cfg').
Proof.
  intros Hnew Hsteps.
  destruct (NewHTTPStream_run _ _ _ _ _ _ _ Hnew) as (hs & Hh & Ha & _).
  destruct (heap_evolves_lookup _ _ _ _ (steps_heap _ _ Hsteps) Hh)
    as (hs' & Hh' & Hev).
  apply evolves_fields in Hev as (Haddr & _).
  split; [done|]. split; [|done].
  unfold String_. unfold_m. rewrite Hh'. congruence.
Qed.

(** ** The handoff *)

Lemma no_deadline_conns (s s' : State) (k : ConnId) :
  conns s' = conns s → no_deadline s k → no_deadline s' k.
Proof. unfold no_deadline, conn_of. by intros ->. Qed.

Lemma no_deadline_insert (s s' : State) (c k : ConnId) (v : Conn) :
  conns s' = <[c := v]> (conns s) →
  c_readDeadline v = TimeZero → c_writeDeadline v = TimeZero →
  no_deadline s k → no_deadline s' k.
Proof.
  unfold no_deadline, conn_of. intros -> Hr Hw H.
  destruct (decide (c = k)) as [->|Hne].
  - by rewrite lookup_insert_eq.
  - by rewrite lookup_insert_ne.
Qed.

Lemma run_no_deadline (c : Call) (s s' : State) (t : Thread) (k : ConnId) :
  run prefix net c s = Some (t, s') → no_deadline s k → no_deadline s' k.
Proof.
  destruct c as [h address timeout|h|h|h|h|h|h w r]; unfold run;
    cbv [mbind M_bind mret M_ret].
  - destruct (heap s !! h) as [hs|] eqn:Hh;
      [|by rewrite (Dial_panics _ _ _ _ _ _ Hh)].
    rewrite (Dial_run _ _ _ _ _ _ _ Hh). cbv zeta.
    destruct (net_dial _ _ _ _ _ _) as [c|e];
      [destruct (net_write _ _ _ _) as [e|]|]; intros [= <- <-] H.
    + eapply (no_deadline_insert _ _ c); [| | |exact H].
      * unfold Dial_failed, Dial_started. simpl_state. apply insert_insert_eq.
      * done.
      * done.
    + by eapply (no_deadline_insert _ _ c); [| | |exact H].
    + by eapply no_deadline_conns; [|exact H].
  - unfold Accept. unfold_m. destruct (heap s !! h) as [hs|]; [|done].
    destruct (closed hs); intros [= <- <-] H; by eapply no_deadline_conns.
  - unfold Close. unfold_m. destruct (heap s !! h) as [hs|]; [|done].
    intros [= <- <-] H; by eapply no_deadline_conns.
  - unfold Addr. unfold_m. by intros [= <- <-].
  - unfold String_. unfold_m. destruct (heap s !! h) as [hs|]; [|done].
    by intros [= <- <-].
  - unfold Network. unfold_m. by intros [= <- <-].
  - destruct (heap s !! h) as [hs|] eqn:Hh;
      [|by rewrite (ServeHTTP_panics _ _ _ _ Hh)].
    rewrite (ServeHTTP_run _ _ _ _ _ Hh). cbv zeta.
    destruct (closed hs); [intros [= <- <-] H; by eapply no_deadline_conns|].
    destruct (negb _); [intros [= <- <-] H; by eapply no_deadline_conns|].
    destruct (VerifyHTTPRequest _ _);
      [|intros [= <- <-] H; by eapply no_deadline_conns].
    destruct (Hijacker w) as [[conn|e]|]; intros [= <- <-] H;
      [|by eapply no_deadline_conns..].
    by eapply (no_deadline_insert _ _ conn); [| | |exact H].
Qed.

Lemma step_by_no_deadline (a : Action) (cfg cfg' : Config) (k : ConnId) :
  step_by prefix net a cfg = Some cfg' →
  no_deadline (world cfg) k → no_deadline (world cfg') k.
Proof.
  destruct a as [i|i j]; cbn.
  - destruct (pool cfg !! i) as [[c| | |]|]; try done.
    destruct (run prefix net c (world cfg)) as [[t s']|] eqn:E; [|done].
    intros [= <-]. cbn. by eapply run_no_deadline.
  - destruct (pool cfg !! i) as [[|ch conn| |]|]; try done.
    destruct (pool cfg !! j) as [[| |ch'|]|]; try done.
    destruct (decide (ch = ch')); [|done].
    by intros [= <-].
Qed.

Lemma step_by_returned (a : Action) (cfg cfg' : Config) (i : nat) (v : Value) :
  step_by prefix net a cfg = Some cfg' →
  pool cfg !! i = Some (Returned v) → pool cfg' !! i = Some (Returned v).
Proof.
  destruct a as [k|k j]; cbn.
  - destruct (pool cfg !! k) as [[c0| | |]|] eqn:Hk; try done.
    destruct (run prefix net c0 (world cfg)) as [[t s']|] eqn:E; [|done].
    intros [= <-] Hi. cbn.
    rewrite list_lookup_insert_ne; [done|]. intros ->. congruence.
  - destruct (pool cfg !! k) as [[|ch conn| |]|] eqn:Hk; try done.
    destruct (pool cfg !! j) as [[| |ch'|]|] eqn:Hj; try done.
    destruct (decide (ch = ch')); [|done].
    intros [= <-] Hi. cbn.
    rewrite !list_lookup_insert_ne; [done| |]; intros ->; congruence.
Qed.

Lemma step_by_handoff (a : Action) (cfg1 cfg cfg' : Config) (i : nat)
    (ch : chan) (conn : ConnId) :
  step_by prefix net a cfg = Some cfg' →
  handoff_state i ch conn cfg1 cfg → handoff_state i ch conn cfg1 cfg'.
Proof.
  unfold handoff_state, sent_by.
  intros Ha [[Hi Hlog]|[Hi (j & Hlog & Hj)]].
  - destruct a as [k|k j]; cbn in Ha.
    + destruct (pool cfg !! k) as [[c0| | |]|] eqn:Hk; try done.
      destruct (run prefix net c0 (world cfg)) as [[t s']|] eqn:E; [|done].
      injection Ha as <-. left. cbn [pool handoffs world]. split; [|done].
      rewrite list_lookup_insert_ne; [done|]. intros ->. congruence.
    + destruct (pool cfg !! k) as [[|ch0 conn0| |]|] eqn:Hk; try done.
      destruct (pool cfg !! j) as [[| |ch'|]|] eqn:Hj; try done.
      destruct (decide (ch0 = ch')) as [<-|]; [|done].
      injection Ha as <-. cbn [pool handoffs world].
      assert (j ≠ i) as Hji by (intros ->; congruence).
      destruct (decide (k = i)) as [->|Hki].
      * right. rewrite Hi in Hk. injection Hk as <- <-.
        rewrite list_lookup_insert_ne by done.
        rewrite list_lookup_insert_eq by (by eapply lookup_lt_Some).
        split; [done|]. exists j. rewrite filter_cons_True by done.
        split; [by rewrite Hlog|].
        rewrite list_lookup_insert_eq; [done|].
        rewrite length_insert. by eapply lookup_lt_Some.
      * left. rewrite !list_lookup_insert_ne by done.
        split; [done|]. by rewrite filter_cons_False.
  - right. split; [by eapply step_by_returned|]. exists j.
    split; [|by eapply step_by_returned].
    destruct a as [k|k j0]; cbn in Ha.
    + destruct (pool cfg !! k) as [[c0| | |]|] eqn:Hk; try done.
      destruct (run prefix net c0 (world cfg)) as [[t s']|] eqn:E; [|done].
      by injection Ha as <-.
    + destruct (pool cfg !! k) as [[|ch0 conn0| |]|] eqn:Hk; try done.
      destruct (pool cfg !! j0) as [[| |ch'|]|] eqn:Hj0; try done.
      destruct (decide (ch0 = ch')); [|done].
      injection Ha as <-. cbn [pool handoffs world].
      rewrite filter_cons_False; [done|]. cbn. intros ->. congruence.
Qed.

Lemma Sync_delivers (cfg : Config) (i j : nat) (ch : chan) (conn : ConnId) :
  pool cfg !! i = Some (Sending ch conn) →
  pool cfg !! j = Some (Receiving ch) →
  step_by prefix net (Sync i j) cfg = Some (delivered i j conn cfg).
Proof.
  intros Hi Hj. cbn [step_by]. rewrite Hi, Hj. by rewrite decide_True.
Qed.

Lemma step_by_sender (a : Action) (cfg cfg' : Config) (i : nat) (ch : chan)
    (conn : ConnId) :
  step_by prefix net a cfg = Some cfg' →
  pool cfg !! i = Some (Sending ch conn) →
  pool cfg' !! i = Some (Sending ch conn) ∨
  ∃ j, a = Sync i j ∧ pool cfg !! j = Some (Receiving ch) ∧
       cfg' = delivered i j conn cfg.
Proof.
  intros Ha Hi. destruct a as [k|k j]; cbn [step_by] in Ha.
  - destruct (pool cfg !! k) as [[c0| | |]|] eqn:Hk; try done.
    destruct (run prefix net c0 (world cfg)) as [[t s']|] eqn:E; [|done].
    injection Ha as <-. left. cbn [pool].
    rewrite list_lookup_insert_ne; [done|]. intros ->. congruence.
  - destruct (pool cfg !! k) as [[|ch0 conn0| |]|] eqn:Hk; try done.
    destruct (pool cfg !! j) as [[| |ch'|]|] eqn:Hj; try done.
    destruct (decide (ch0 = ch')) as [<-|]; [|done].
    injection Ha as <-.
    destruct (decide (k = i)) as [->|Hki].
    + right. exists j. rewrite Hi in Hk. by injection Hk as <- <-.
    + left. cbn [pool]. rewrite !list_lookup_insert_ne; [done|done|].
      intros ->. congruence.
Qed.

(** C3 as the code has it: a ServeHTTP call that finds its listener open,
    the upgrade token "raft-0", a request the CA accepts and a writer whose
    hijack yields [conn] runs, in one step, up to the send on the handoff
    channel: one connection is hijacked, both deadlines of [conn] are cleared,
    and [conn] is on offer.  From then on, however the goroutines are
    scheduled, [conn] keeps its cleared deadlines and is either still on offer
    by this goroutine, which has sent nothing, or this goroutine has returned
    after sending exactly [conn] to exactly one goroutine, whose Accept
    returned [conn].  While [conn] is on offer, every goroutine blocked in the
    receive of that channel can take it, and taking it makes that goroutine's
    Accept return [conn], makes ServeHTTP return, records the handoff and
    changes no other goroutine and nothing in the world; and no step of the
    process takes the offer away in any other way. *)
Theorem ServeHTTP_hands_off (cfg : Config) (i : nat) (h : loc)
    (hs : HTTPStream) (w : ResponseWriter) (r : Request) (conn : ConnId)
    (ident : string) :
  pool cfg !! i = Some (Running (CallServeHTTP h w r)) →
  heap (world cfg) !! h = Some hs →
  closed hs = false →
  Header_Get (Header r) "Upgrade" = "raft-0" →
  VerifyHTTPRequest (ca hs) r = Ok ident →
  Hijacker w = Some (Ok conn) →
  ∃ cfg1,
    step_by prefix net (Run i) cfg = Some cfg1 ∧
    pool cfg1 = <[i := Sending (accepted hs) conn]> (pool cfg) ∧
    hijacked (trace (world cfg1)) = rw_id w :: hijacked (trace (world cfg)) ∧
    ∀ cfg2, rtc (step prefix net) cfg1 cfg2 →
      no_deadline (world cfg2) conn ∧
      handoff_state i (accepted hs) conn cfg1 cfg2 ∧
      (pool cfg2 !! i = Some (Sending (accepted hs) conn) →
       (∀ j, pool cfg2 !! j = Some (Receiving (accepted hs)) →
          step_by prefix net (Sync i j) cfg2 =
            Some {| world := world cfg2;
                    pool := <[j := Returned (VConn (Ok conn))]>
                              (<[i := Returned VUnit]> (pool cfg2));
                    handoffs := {| ho_sender := i; ho_receiver := j;
                                   ho_conn := conn |} :: handoffs cfg2 |} ∧
          pool (delivered i j conn cfg2) !! j = Some (Returned (VConn (Ok conn))) ∧
          pool (delivered i j conn cfg2) !! i = Some (Returned VUnit) ∧
          (∀ k, k ≠ i → k ≠ j →
                pool (delivered i j conn cfg2) !! k = pool cfg2 !! k)) ∧
       (∀ a cfg3, step_by prefix net a cfg2 = Some cfg3 →
          pool cfg3 !! i = Some (Sending (accepted hs) conn) ∨
          ∃ j, a = Sync i j ∧
               pool cfg2 !! j = Some (Receiving (accepted hs)) ∧
               cfg3 = delivered i j conn cfg2)).
Proof.
  intros Hi Hh Hc Hu Hv Hj.
  assert (Hrun : run prefix net (CallServeHTTP h w r) (world cfg) =
            Some (Sending (accepted hs) conn,
                  set_conns (<[conn := cleared (world cfg) conn]>)
                    (emit (EvHijack (rw_id w)) (ServeHTTP_counted (world cfg))))).
  { unfold run. cbv [mbind M_bind mret M_ret].
    rewrite (ServeHTTP_run _ _ _ _ _ Hh). cbv zeta.
    by rewrite Hc, Hu, Hv, Hj. }
  set (cfg1 := {| world := set_conns (<[conn := cleared (world cfg) conn]>)
                             (emit (EvHijack (rw_id w))
                                (ServeHTTP_counted (world cfg)));
                  pool := <[i := Sending (accepted hs) conn]> (pool cfg);
                  handoffs := handoffs cfg |}).
  exists cfg1. split; [cbn; by rewrite Hi, Hrun|].
  assert (Hlen : i < length (pool cfg)) by (by eapply lookup_lt_Some).
  split; [done|]. split; [done|].
  intros cfg2 Hsteps.
  assert (no_deadline (world cfg2) conn ∧
          handoff_state i (accepted hs) conn cfg1 cfg2) as [Hd Hs].
  { revert cfg2 Hsteps.
    apply (rtc_ind_r (λ c, no_deadline (world c) conn ∧
                           handoff_state i (accepted hs) conn cfg1 c)).
    - split.
      + unfold no_deadline, conn_of. cbn. by rewrite lookup_insert_eq.
      + left. cbn. by rewrite list_lookup_insert_eq.
    - intros c2 c3 _ [a Ha] [IHd IHh].
      split; [by eapply step_by_no_deadline | by eapply step_by_handoff]. }
  split; [done|]. split; [done|].
  intros Hsend. split.
  - intros j Hrecv.
    assert (j ≠ i) as Hji by (intros ->; congruence).
    assert (i < length (pool cfg2)) by (by eapply lookup_lt_Some).
    split; [exact (Sync_delivers _ _ _ _ _ Hsend Hrecv)|].
    unfold delivered. cbn [pool]. split.
    + rewrite list_lookup_insert_eq; [done|].
      rewrite length_insert. by eapply lookup_lt_Some.
    + split.
      * rewrite list_lookup_insert_ne by done.
        by rewrite list_lookup_insert_eq.
      * intros k Hki Hkj. by rewrite !list_lookup_insert_ne.
  - intros a cfg3 Ha.
    destruct (step_by_sender _ _ _ _ _ _ Ha Hsend)
      as [?|(j & -> & Hrecv & ->)]; [by left|].
    right. by exists j.
Qed.

End Goroutines.

(** * The definitions at work on the example node *)

Example example_world_listener : heap example_world !! 0 = Some example_listener.
Proof. reflexivity. Qed.

Example example_race_runs :
  exec example_prefix net_up [Run 0; Run 1] example_race = Some example_race_end.
Proof. vm_compute. reflexivity. Qed.

(** C1 on the code: a goroutine calls Accept on the open listener and blocks
    in the channel receive; another goroutine then calls Close, which
    returns.  The closed flag is now true, yet the first goroutine is still
    blocked in its receive and the process has no step left to take: Accept
    never returns the error. *)
Theorem Accept_blocked_after_Close :
  exec example_prefix net_up [Run 0; Run 1] example_race = Some example_race_end ∧
  closed <$> heap (world example_race_end) !! 0 = Some true ∧
  pool example_race_end !! 0 = Some (Receiving 0) ∧
  ∀ a, step_by example_prefix net_up a example_race_end = None.
Proof.
  split; [vm_compute; reflexivity|]. split; [reflexivity|].
  split; [reflexivity|].
  intros [i|i j]; cbn.
  - destruct i as [|[|i]]; reflexivity.
  - destruct i as [|[|i]]; reflexivity.
Qed.

(** C4 refuted: dialing "10.0.0.5" under the prefix "/core", the bytes Dial
    writes are not the request with CRLF line ends. *)
Lemma Dial_request_not_CRLF :
  ∃ c s',
    Dial example_prefix net_up 0 "10.0.0.5" 5%Z example_world = Some (Ok c, s') ∧
    written (trace s') ≠
      [(c, spec_upgrade_request example_prefix "10.0.0.5:4934")].
Proof.
  eexists _, _. split; [vm_compute; reflexivity|].
  vm_compute. intros H. discriminate H.
Qed.

(** C8 refuted: the value Addr returns is the pointer to the listener, and
    a Close of the listener shows through it. *)
Lemma Addr_aliases_listener :
  ∃ a s1 e s2,
    Addr 0 example_world = Some (a, s1) ∧
    Close 0 s1 = Some (e, s2) ∧
    a = 0 ∧
    closed <$> heap s1 !! a = Some false ∧
    closed <$> heap s2 !! a = Some true.
Proof. eexists _, _, _, _. repeat split; vm_compute; reflexivity. Qed.

Lemma Accept_after_Close_witness :
  Accept 0 (world example_shutdown) =
    Some (AcceptReturn (Err "Server is shutting down"), world example_shutdown) ∧
  run example_prefix net_up (CallAccept 0) (world example_shutdown) =
    Some (Returned (VConn (Err "Server is shutting down")), world example_shutdown).
Proof.
  apply (Accept_after_Close example_prefix net_up 0 example_world
           example_closed None [Running (CallAccept 0)] [] example_shutdown).
  - reflexivity.
  - apply rtc_refl.
Defined.

(** C3 refuted: the request passes all four gates and its connection 7 is
    put on offer; the listener is then closed and the one Accept that follows
    returns the shutdown error.  Every goroutine but the server's is done, no
    step is left, and connection 7, still open, has been handed to nobody. *)
Lemma ServeHTTP_offer_never_taken :
  closed <$> heap (world example_late_accept) !! 0 = Some false ∧
  Header_Get (Header example_request) "Upgrade" = "raft-0" ∧
  VerifyHTTPRequest example_ca example_request = Ok "node1" ∧
  Hijacker example_writer = Some (Ok 7) ∧
  ∃ cfg,
    exec example_prefix net_up [Run 0; Run 1; Run 2] example_late_accept =
      Some cfg ∧
    pool cfg = [Sending 0 7; Returned (VError None);
                Returned (VConn (Err "Server is shutting down"))] ∧
    handoffs cfg = [] ∧
    is_open (world cfg) 7 = true ∧
    ∀ a, step_by example_prefix net_up a cfg = None.
Proof.
  do 4 (split; [reflexivity|]).
  eexists. split; [vm_compute; reflexivity|].
  do 3 (split; [reflexivity|]).
  intros [i|i j]; cbn.
  - destruct i as [|[|[|i]]]; reflexivity.
  - destruct i as [|[|[|i]]]; try reflexivity.
    destruct j as [|[|[|j]]]; reflexivity.
Qed.

Lemma ServeHTTP_hands_off_witness :
  ∃ cfg1,
    step_by example_prefix net_up (Run 0) example_inbound = Some cfg1 ∧
    pool cfg1 = [Sending 0 7; Receiving 0] ∧
    step_by example_prefix net_up (Sync 0 1) cfg1 =
      Some (delivered 0 1 7 cfg1) ∧
    pool (delivered 0 1 7 cfg1) =
      [Returned VUnit; Returned (VConn (Ok 7))] ∧
    no_deadline (world cfg1) 7.
Proof.
  destruct (ServeHTTP_hands_off example_prefix net_up example_inbound 0 0
              example_listener example_writer example_request 7 "node1")
    as (cfg1 & Hrun & Hpool & _ & Hlater);
    [reflexivity..|].
  destruct (Hlater cfg1 (rtc_refl _ _)) as (Hd & _ & Hsend).
  assert (pool cfg1 = [Sending 0 7; Receiving 0]) as Hp by (rewrite Hpool; reflexivity).
  destruct Hsend as [Hsync _]; [by rewrite Hp|].
  destruct (Hsync 1) as (Hs & _); [by rewrite Hp|].
  exists cfg1. split; [exact Hrun|]. split; [exact Hp|].
  split; [exact Hs|]. split; [|exact Hd].
  unfold delivered. cbn [pool]. by rewrite Hp.
Defined.

Lemma Dial_writes_upgrade_request_witness :
  let a := Dial_address "10.0.0.5" in
  let request := "GET " +:+ example_prefix +:+ "/raft HTTP/1.1" +:+ LF +:+
                 "Host: " +:+ a +:+ LF +:+ "Upgrade: raft-0" +:+ LF +:+ LF in
  ∃ r s',
    Dial example_prefix net_up 0 "10.0.0.5" 5%Z example_world = Some (r, s') ∧
    written (trace s') = (1, request) :: written (trace example_world) ∧
    (∀ c', r = Ok c' →
       c' = 1 ∧
       trace s' = EvWrite 1 request
                    :: trace (Dial_started example_listener "10.0.0.5" 5%Z example_world)).
Proof.
  apply (Dial_writes_upgrade_request example_prefix net_up 0 example_listener
           "10.0.0.5" 5%Z example_world 1); reflexivity.
Defined.

Lemma Dial_default_port_witness :
  ∃ r s' target,
    Dial example_prefix net_up 0 "10.0.0.5" 5%Z example_world = Some (r, s') ∧
    dialed (trace s') = target :: dialed (trace example_world) ∧
    (¬ has_colon "10.0.0.5" → target = "10.0.0.5" +:+ ":4934") ∧
    (has_colon "10.0.0.5" → target = "10.0.0.5").
Proof.
  apply (Dial_default_port example_prefix net_up 0 example_listener
           "10.0.0.5" 5%Z example_world).
  reflexivity.
Defined.

Lemma ServeHTTP_unauthorized_witness :
  ∃ s',
    ServeHTTP 0 example_writer example_stranger example_served =
      Some (ServeReturn, s') ∧
    run example_prefix net_up
      (CallServeHTTP 0 example_writer example_stranger) example_served =
      Some (Returned VUnit, s') ∧
    trace s' = EvHTTPError (rw_id example_writer) "unknown peer" 401
                 :: trace example_served ∧
    hijacked (trace s') = hijacked (trace example_served) ∧
    conns s' = conns example_served ∧
    heap s' = heap example_served.
Proof.
  apply (ServeHTTP_unauthorized example_prefix net_up 0 example_listener
           example_writer example_stranger example_served "unknown peer");
    reflexivity.
Defined.


Lemma Addr_is_the_listener_witness :
  Addr 0 (world example_race_end) = Some (0, world example_race_end) ∧
  String_ 0 (world example_race_end) =
    Some ("10.0.0.1:4934", world example_race_end) ∧
  Network 0 (world example_race_end) = Some ("tcp", world example_race_end).
Proof.
  apply (Addr_is_the_listener example_prefix net_up "10.0.0.1:4934" ["cert"]
           example_ca example_init example_world 0 None
           (pool example_race) [] example_race_end).
  - reflexivity.
  - apply (exec_steps example_prefix net_up [Run 0; Run 1]).
    vm_compute. reflexivity.
Defined.

Lemma invariants_preserved_witness :
  (∀ h hs, heap (world example_race) !! h = Some hs →
     ∃ hs', heap (world example_race_end) !! h = Some hs' ∧
            (closed hs = true → closed hs' = true) ∧
            addr hs' = addr hs) ∧
  (∀ i ch conn, pool example_race_end !! i = Some (Sending ch conn) →
     pool example_race !! i = Some (Sending ch conn) ∨
     ∃ h w r hs,
       pool example_race !! i = Some (Running (CallServeHTTP h w r)) ∧
       heap (world example_race) !! h = Some hs ∧ closed hs = false).
Proof.
  apply (invariants_preserved example_prefix net_up example_race example_race_end).
  apply (exec_steps example_prefix net_up [Run 0; Run 1]).
  vm_compute. reflexivity.
Defined.

Lemma Dial_frame_witness :
  ∃ r s' evs,
    Dial example_prefix net_down 0 "10.0.0.5:9000" 5%Z example_world = Some (r, s') ∧
    heap s' = heap example_world ∧
    heap s' !! 0 = Some example_listener ∧
    trace s' = evs ++
      EvTLSDial {| Timeout := 5%Z; KeepAlive := KeepAlive (dial example_listener) |}
        "tcp" (Dial_address "10.0.0.5:9000")
        (Dial_config example_listener (Dial_address "10.0.0.5:9000"))
      :: EvDebug "httpstream" ("Dialing " +:+ Dial_address "10.0.0.5:9000")
      :: trace example_world.
Proof.
  apply (Dial_frame example_prefix net_down 0 example_listener
           "10.0.0.5:9000" 5%Z example_world).
  reflexivity.
Defined.

(** * Further properties of the stream layer *)

(** ** The gates of ServeHTTP *)

Section Rejections.

Variable prefix : string.
Variable net : Net.

(** Once a Close of the listener has returned, then whatever the goroutines
    do afterwards, ServeHTTP answers every request, whatever its headers and
    its writer, with [503 Service Unavailable] and returns: it hijacks
    nothing and touches no connection. *)
Theorem ServeHTTP_after_Close (h : loc) (s s1 : State) (e : option error)
    (p : list Thread) (ho : list Handoff) (cfg' : Config)
    (w : ResponseWriter) (r : Request) :
  Close h s = Some (e, s1) →
  rtc (step prefix net) {| world := s1; pool := p; handoffs := ho |} cfg' →
  ∃ s',
    ServeHTTP h w r (world cfg') = Some (ServeReturn, s') ∧
    trace s' = EvHTTPError (rw_id w) "Server is shutting down" 503
                 :: trace (world cfg') ∧
    conns s' = conns (world cfg') ∧
    heap s' = heap (world cfg').
Proof.
  intros Hclose Hsteps.
  destruct (Close_closes _ _ _ _ Hclose) as (hs & Hh & Hc).
  destruct (heap_evolves_lookup _ _ _ _ (steps_heap _ _ _ _ Hsteps) Hh)
    as (hs' & Hh' & Hev).
  rewrite (ServeHTTP_run _ _ _ _ _ Hh'). cbv zeta.
  rewrite (evolves_closed _ _ Hev Hc). by eexists.
Qed.

End Rejections.

(** On an open listener a request that has no Upgrade header, or whose
    Upgrade header is not exactly "raft-0", is answered [400 Bad Request] and
    ServeHTTP returns without hijacking. *)
Theorem ServeHTTP_bad_upgrade (h : loc) (hs : HTTPStream) (w : ResponseWriter)
    (r : Request) (s : State) :
  heap s !! h = Some hs →
  closed hs = false →
  Header r !! "Upgrade" = None ∨ Header_Get (Header r) "Upgrade" ≠ "raft-0" →
  ∃ s',
    ServeHTTP h w r s = Some (ServeReturn, s') ∧
    trace s' = EvHTTPError (rw_id w) "This endpoint is for streaming raft" 400
                 :: trace s ∧
    hijacked (trace s') = hijacked (trace s) ∧
    conns s' = conns s ∧
    heap s' = heap s.
Proof.
  intros Hh Hc Hu.
  assert (Header_Get (Header r) "Upgrade" ≠ "raft-0") as Hne.
  { destruct Hu as [Hu|Hu]; [|done]. unfold Header_Get. by rewrite Hu. }
  rewrite (ServeHTTP_run _ _ _ _ _ Hh). cbv zeta. rewrite Hc.
  apply String.eqb_neq in Hne. rewrite Hne. by eexists.
Qed.

(** A request that passes the closed, protocol and identity checks on a
    writer that is no Hijacker is answered [500 Internal Server Error];
    no hijack is attempted and ServeHTTP returns. *)
Theorem ServeHTTP_no_hijacker (h : loc) (hs : HTTPStream) (w : ResponseWriter)
    (r : Request) (s : State) (ident : string) :
  heap s !! h = Some hs →
  closed hs = false →
  Header_Get (Header r) "Upgrade" = "raft-0" →
  VerifyHTTPRequest (ca hs) r = Ok ident →
  Hijacker w = None →
  ∃ s',
    ServeHTTP h w r s = Some (ServeReturn, s') ∧
    trace s' = EvHTTPError (rw_id w) "webserver doesn't support hijacking" 500
                 :: trace s ∧
    hijacked (trace s') = hijacked (trace s) ∧
    conns s' = conns s.
Proof.
  intros Hh Hc Hu Hv Hj.
  rewrite (ServeHTTP_run _ _ _ _ _ Hh). cbv zeta.
  rewrite Hc, Hu, Hv, Hj. by eexists.
Qed.

(** When the hijack itself fails with error [e], ServeHTTP answers
    [500 Internal Server Error] with [e] as the body after the one hijack
    attempt, and returns: it offers no connection and changes none. *)
Theorem ServeHTTP_hijack_fails (h : loc) (hs : HTTPStream) (w : ResponseWriter)
    (r : Request) (s : State) (ident : string) (e : error) :
  heap s !! h = Some hs →
  closed hs = false →
  Header_Get (Header r) "Upgrade" = "raft-0" →
  VerifyHTTPRequest (ca hs) r = Ok ident →
  Hijacker w = Some (Err e) →
  ∃ s',
    ServeHTTP h w r s = Some (ServeReturn, s') ∧
    trace s' = EvHTTPError (rw_id w) e 500 :: EvHijack (rw_id w) :: trace s ∧
    conns s' = conns s.
Proof.
  intros Hh Hc Hu Hv Hj.
  rewrite (ServeHTTP_run _ _ _ _ _ Hh). cbv zeta.
  rewrite Hc, Hu, Hv, Hj. by eexists.
Qed.

(** ServeHTTP reaches the send on the handoff channel only through all four
    gates: if it offers [conn] on [ch], then the listener was open, the
    Upgrade header was "raft-0", the CA accepted the request, the hijack
    gave [conn], [ch] is the channel of this listener, and [conn] has no
    deadline left. *)
Theorem ServeHTTP_send_only_verified (h : loc) (w : ResponseWriter)
    (r : Request) (s s' : State) (ch : chan) (conn : ConnId) :
  ServeHTTP h w r s = Some (ServeSend ch conn, s') →
  ∃ hs ident,
    heap s !! h = Some hs ∧
    closed hs = false ∧
    Header_Get (Header r) "Upgrade" = "raft-0" ∧
    VerifyHTTPRequest (ca hs) r = Ok ident ∧
    Hijacker w = Some (Ok conn) ∧
    ch = accepted hs ∧
    no_deadline s' conn.
Proof.
  destruct (heap s !! h) as [hs|] eqn:Hh.
  - rewrite (ServeHTTP_run _ _ _ _ _ Hh). cbv zeta.
    destruct (closed hs) eqn:Hc; [done|].
    destruct (String.eqb _ _) eqn:Hu; [|done]. cbn [negb].
    destruct (VerifyHTTPRequest _ _) as [ident|] eqn:Hv; [|done].
    destruct (Hijacker w) as [[c|e]|] eqn:Hj; [|done..].
    intros [= <- <- <-]. exists hs, ident.
    apply String.eqb_eq in Hu. repeat split; try done.
    all: unfold conn_of; simpl_state; by rewrite lookup_insert_eq.
  - unfold ServeHTTP. unfold_m. simpl_state. by rewrite Hh.
Qed.

(** On a live listener ServeHTTP never panics, and it writes exactly one
    response when it rejects the request and none when it hands the
    connection off; the status of a rejection is 503, 400, 401 or 500. *)
Theorem ServeHTTP_one_response (h : loc) (hs : HTTPStream) (w : ResponseWriter)
    (r : Request) (s : State) :
  heap s !! h = Some hs →
  ∃ b s',
    ServeHTTP h w r s = Some (b, s') ∧
    match b with
    | ServeReturn =>
        ∃ msg code,
          responses (trace s') = (rw_id w, msg, code) :: responses (trace s) ∧
          code ∈ [503; 400; 401; 500]%Z
    | ServeSend _ _ => responses (trace s') = responses (trace s)
    end.
Proof.
  intros Hh. rewrite (ServeHTTP_run _ _ _ _ _ Hh). cbv zeta.
  destruct (closed hs); [|destruct (negb _);
    [|destruct (VerifyHTTPRequest _ _);
      [destruct (Hijacker w) as [[c|e]|]|]]];
    eexists _, _; (split; [reflexivity|]); try reflexivity;
    eexists _, _; (split; [reflexivity|]);
    unfold StatusServiceUnavailable, StatusBadRequest, StatusUnauthorized,
      StatusInternalServerError; set_solver.
Qed.

(** ** Close and NewHTTPStream *)

(** Close cannot fail and is idempotent: it returns nil, a second Close
    returns nil and changes nothing, and the one thing the first Close
    changes is the closed flag of its own listener, which is now true. *)
Theorem Close_idempotent (h : loc) (hs : HTTPStream) (s : State) :
  heap s !! h = Some hs →
  ∃ s1,
    Close h s = Some (None, s1) ∧
    Close h s1 = Some (None, s1) ∧
    heap s1 !! h = Some (set_closed true hs) ∧
    (∀ h', h' ≠ h → heap s1 !! h' = heap s !! h') ∧
    counters s1 = counters s ∧ conns s1 = conns s ∧ trace s1 = trace s ∧
    next_loc s1 = next_loc s ∧ next_chan s1 = next_chan s.
Proof.
  intros Hh. unfold Close. unfold_m. rewrite Hh. eexists. split; [reflexivity|].
  simpl_state. rewrite lookup_insert_eq. split.
  - do 2 f_equal. unfold set_heap. simpl_state. f_equal.
    apply insert_insert_eq.
  - split; [done|]. split; [|done].
    intros h' Hne. by rewrite lookup_insert_ne.
Qed.

Lemma NewHTTPStream_eq (addr0 : string) (certs : list tls_Certificate)
    (coreCA : CA) (s : State) :
  NewHTTPStream addr0 certs coreCA s =
  Some ((next_loc s, None),
        {| heap := <[next_loc s :=
                      {| closed := false; addr := addr0; accepted := next_chan s;
                         dial := {| Timeout := 0%Z; KeepAlive := (Second * 25)%Z |};
                         certificates := certs; ca := coreCA;
                         rootCAs := CertPool coreCA |}]> (heap s);
           next_loc := S (next_loc s); next_chan := S (next_chan s);
           counters := counters s; conns := conns s; trace := trace s |}).
Proof. reflexivity. Qed.

Lemma listeners_wf_free (s : State) :
  listeners_wf s → heap s !! next_loc s = None.
Proof.
  intros [Hb _]. destruct (heap s !! next_loc s) as [hs|] eqn:E; [|done].
  apply Hb in E. lia.
Qed.

Lemma NewHTTPStream_wf (addr0 : string) (certs : list tls_Certificate)
    (coreCA : CA) (s s1 : State) (x : loc * option error) :
  listeners_wf s →
  NewHTTPStream addr0 certs coreCA s = Some (x, s1) →
  listeners_wf s1.
Proof.
  intros [Hb Hinj]. rewrite NewHTTPStream_eq. intros [= _ <-]. split.
  - intros h hs. simpl_state.
    destruct (decide (next_loc s = h)) as [<-|Hne].
    + rewrite lookup_insert_eq. intros Heq. simplify_eq. cbn. lia.
    + rewrite lookup_insert_ne by done. intros Hh. apply Hb in Hh. lia.
  - intros h1 h2 hs1 hs2. simpl_state.
    destruct (decide (next_loc s = h1)) as [<-|Hne1],
             (decide (next_loc s = h2)) as [<-|Hne2];
      rewrite ?lookup_insert_eq, ?lookup_insert_ne by done; try done.
    + intros Heq Hh2 Hacc. simplify_eq. cbn in Hacc. apply Hb in Hh2. lia.
    + intros Hh1 Heq Hacc. simplify_eq. cbn in Hacc. apply Hb in Hh1. lia.
    + apply Hinj.
Qed.

Lemma listeners_wf_empty (s : State) : heap s = ∅ → listeners_wf s.
Proof.
  intros He. split.
  - intros h hs. by rewrite He, lookup_empty.
  - intros h1 h2 hs1 hs2. by rewrite He, lookup_empty.
Qed.

(** NewHTTPStream cannot fail.  In a well-formed world it returns a pointer
    that was not in use, to an open listener with the given address and
    certificates, the CA's root pool, a dialer that keeps alive every 25
    seconds, and a handoff channel no other listener has; the listeners that
    existed are unchanged and the world stays well-formed. *)
Theorem NewHTTPStream_fresh (addr0 : string) (certs : list tls_Certificate)
    (coreCA : CA) (s : State) :
  listeners_wf s →
  ∃ h hs s1,
    NewHTTPStream addr0 certs coreCA s = Some ((h, None), s1) ∧
    heap s !! h = None ∧
    heap s1 !! h = Some hs ∧
    closed hs = false ∧ addr hs = addr0 ∧ certificates hs = certs ∧
    rootCAs hs = CertPool coreCA ∧
    dial hs = {| Timeout := 0%Z; KeepAlive := 25000000000%Z |} ∧
    (∀ h' hs', heap s !! h' = Some hs' →
       heap s1 !! h' = Some hs' ∧ accepted hs' ≠ accepted hs) ∧
    listeners_wf s1.
Proof.
  intros Hwf. assert (Hfree := listeners_wf_free _ Hwf).
  assert (Hwf1 := λ x s1, NewHTTPStream_wf addr0 certs coreCA s s1 x Hwf).
  rewrite NewHTTPStream_eq in *. eexists _, _, _.
  split; [reflexivity|]. simpl_state.
  split; [done|]. rewrite lookup_insert_eq. split; [reflexivity|]. cbn.
  do 5 (split; [reflexivity|]). split.
  - intros h' hs' Hh'. split.
    + rewrite lookup_insert_ne; [done|]. intros <-. congruence.
    + apply (proj1 Hwf) in Hh'. lia.
  - by eapply Hwf1.
Qed.

(** ** What a run of the goroutines keeps *)

Ltac solve_counters :=
  repeat (progress (cbv delta [counter Dial_failed Dial_started ServeHTTP_counted];
                    cbv beta; simpl_state;
                    rewrite ?lookup_insert_eq, ?lookup_insert_ne by done;
                    cbn [default]));
  unfold id; cbn [is_Receiving is_Dial is_ServeHTTP]; first [done | lia].

Lemma count_threads_insert (f : Thread → bool) (p : list Thread) (i : nat)
    (t t' : Thread) :
  p !! i = Some t →
  count_threads f (<[i := t']> p) + (if f t then 1 else 0) =
  count_threads f p + (if f t' then 1 else 0).
Proof.
  revert i. induction p as [|t0 p IH]; intros i; [done|].
  destruct i as [|i].
  - cbn. intros [= ->]. destruct (f t), (f t'); lia.
  - intros Hi. specialize (IH i Hi).
    change (<[S i := t']> (t0 :: p)) with (t0 :: <[i := t']> p).
    cbn [count_threads]. lia.
Qed.

Section Accounting.

Variable prefix : string.
Variable net : Net.


Lemma run_counters (c : Call) (s s' : State) (t : Thread) :
  run prefix net c s = Some (t, s') →
  let d := if is_Dial (Running c) then 1%Z else 0%Z in
  let sv := if is_ServeHTTP (Running c) then 1%Z else 0%Z in
  let ac := if is_Receiving t then 1%Z else 0%Z in
  counter s' "http_dialed" = (counter s "http_dialed" + d)%Z ∧
  counter s' "http_served" = (counter s "http_served" + sv)%Z ∧
  counter s' "http_accepted" = (counter s "http_accepted" + ac)%Z ∧
  (counter s "http_failed" ≤ counter s' "http_failed" ≤
   counter s "http_failed" + d)%Z ∧
  is_Dial t = false ∧ is_ServeHTTP t = false.
Proof.
  destruct c as [h address timeout|h|h|h|h|h|h w r]; unfold run;
    cbv [mbind M_bind mret M_ret]; cbn [is_Dial is_ServeHTTP].
  - destruct (heap s !! h) as [hs|] eqn:Hh;
      [|by rewrite (Dial_panics _ _ _ _ _ _ Hh)].
    rewrite (Dial_run _ _ _ _ _ _ _ Hh). cbv zeta.
    destruct (net_dial _ _ _ _ _ _) as [c|e];
      [destruct (net_write _ _ _ _) as [e|]|]; intros [= <- <-];
      cbn [is_Receiving is_Dial is_ServeHTTP];
      repeat split; solve_counters.
  - unfold Accept. unfold_m. destruct (heap s !! h) as [hs|]; [|done].
    destruct (closed hs); intros [= <- <-];
      cbn [is_Receiving is_Dial is_ServeHTTP]; repeat split; solve_counters.
  - unfold Close. unfold_m. destruct (heap s !! h) as [hs|]; [|done].
    intros [= <- <-]. cbn [is_Receiving is_Dial is_ServeHTTP].
    repeat split; solve_counters.
  - unfold Addr. unfold_m. intros [= <- <-]. repeat split; solve_counters.
  - unfold String_. unfold_m. destruct (heap s !! h) as [hs|]; [|done].
    intros [= <- <-]. repeat split; solve_counters.
  - unfold Network. unfold_m. intros [= <- <-]. repeat split; solve_counters.
  - destruct (heap s !! h) as [hs|] eqn:Hh;
      [|by rewrite (ServeHTTP_panics _ _ _ _ Hh)].
    rewrite (ServeHTTP_run _ _ _ _ _ Hh). cbv zeta.
    destruct (closed hs); [|destruct (negb _);
      [|destruct (VerifyHTTPRequest _ _);
        [destruct (Hijacker w) as [[c|e]|]|]]];
      intros [= <- <-]; cbn [is_Receiving is_Dial is_ServeHTTP];
      repeat split; solve_counters.
Qed.

Lemma step_by_counts (a : Action) (cfg cfg' : Config) :
  step_by prefix net a cfg = Some cfg' →
  (counter (world cfg') "http_dialed" + Z.of_nat (count_threads is_Dial (pool cfg')) =
   counter (world cfg) "http_dialed" + Z.of_nat (count_threads is_Dial (pool cfg)))%Z ∧
  (counter (world cfg') "http_served" + Z.of_nat (count_threads is_ServeHTTP (pool cfg')) =
   counter (world cfg) "http_served" + Z.of_nat (count_threads is_ServeHTTP (pool cfg)))%Z ∧
  (counter (world cfg') "http_accepted" + Z.of_nat (length (handoffs cfg))
     + Z.of_nat (count_threads is_Receiving (pool cfg)) =
   counter (world cfg) "http_accepted" + Z.of_nat (length (handoffs cfg'))
     + Z.of_nat (count_threads is_Receiving (pool cfg')))%Z ∧
  (0 ≤ counter (world cfg') "http_failed" - counter (world cfg) "http_failed" ≤
   counter (world cfg') "http_dialed" - counter (world cfg) "http_dialed")%Z.
Proof.
  destruct a as [i|i j]; cbn [step_by].
  - destruct (pool cfg !! i) as [[c| | |]|] eqn:Hi; try done.
    destruct (run prefix net c (world cfg)) as [[t s']|] eqn:E; [|done].
    intros [= <-]. cbn [world pool handoffs].
    destruct (run_counters _ _ _ _ E) as (Hd & Hs & Ha & Hf & Htd & Hts).
    cbv zeta in Hd, Hs, Ha, Hf.
    pose proof (count_threads_insert is_Dial _ _ _ t Hi) as Cd.
    pose proof (count_threads_insert is_ServeHTTP _ _ _ t Hi) as Cs.
    pose proof (count_threads_insert is_Receiving _ _ _ t Hi) as Cr.
    rewrite Htd in Cd. rewrite Hts in Cs. cbn [is_Receiving] in Cr.
    destruct (is_Dial (Running c)), (is_ServeHTTP (Running c)),
      (is_Receiving t); lia.
  - destruct (pool cfg !! i) as [[|ch conn| |]|] eqn:Hi; try done.
    destruct (pool cfg !! j) as [[| |ch'|]|] eqn:Hj; try done.
    destruct (decide (ch = ch')); [|done].
    intros [= <-]. cbn [world pool handoffs length].
    assert (<[i := Returned VUnit]> (pool cfg) !! j = Some (Receiving ch')) as Hj'.
    { rewrite list_lookup_insert_ne; [done|]. intros ->. congruence. }
    pose proof (count_threads_insert is_Dial _ _ _ (Returned VUnit) Hi) as Cd.
    pose proof (count_threads_insert is_ServeHTTP _ _ _ (Returned VUnit) Hi) as Cs.
    pose proof (count_threads_insert is_Receiving _ _ _ (Returned VUnit) Hi) as Cr.
    pose proof (count_threads_insert is_Dial _ _ _ (Returned (VConn (Ok conn))) Hj') as Cd'.
    pose proof (count_threads_insert is_ServeHTTP _ _ _ (Returned (VConn (Ok conn))) Hj') as Cs'.
    pose proof (count_threads_insert is_Receiving _ _ _ (Returned (VConn (Ok conn))) Hj') as Cr'.
    cbn [is_Dial is_ServeHTTP is_Receiving] in *. lia.
Qed.

(** Along every run, http_served goes up by the number of ServeHTTP calls
    that were run: the counter plus the calls still waiting to run is
    constant, whether a call rejects its request or hands it off. *)
Theorem http_served_counts_calls (cfg cfg' : Config) :
  rtc (step prefix net) cfg cfg' →
  (counter (world cfg') "http_served"
     + Z.of_nat (count_threads is_ServeHTTP (pool cfg')) =
   counter (world cfg) "http_served"
     + Z.of_nat (count_threads is_ServeHTTP (pool cfg)))%Z.
Proof.
  induction 1 as [cfg|cfg cfg1 cfg' [a Ha] _ IH]; [done|].
  destruct (step_by_counts _ _ _ Ha) as (_ & Hs & _). lia.
Qed.

(** Along every run, http_dialed goes up by the number of Dial calls that
    were run, and http_failed never goes down and goes up by at most as much
    as http_dialed: every failure counted belongs to a dial counted. *)
Theorem http_dialed_counts_calls (cfg cfg' : Config) :
  rtc (step prefix net) cfg cfg' →
  (counter (world cfg') "http_dialed"
     + Z.of_nat (count_threads is_Dial (pool cfg')) =
   counter (world cfg) "http_dialed"
     + Z.of_nat (count_threads is_Dial (pool cfg)))%Z ∧
  (0 ≤ counter (world cfg') "http_failed" - counter (world cfg) "http_failed" ≤
   counter (world cfg') "http_dialed" - counter (world cfg) "http_dialed")%Z.
Proof.
  induction 1 as [cfg|cfg cfg1 cfg' [a Ha] _ IH]; [lia|].
  destruct (step_by_counts _ _ _ Ha) as (Hd & _ & _ & Hf). lia.
Qed.

(** Along every run, http_accepted goes up by the number of connections
    handed to Accept calls plus the growth in Accept calls blocked in the
    receive: Accept counts when it gets past the closed check, so a call
    that blocks for ever has been counted although it accepted nothing. *)
Theorem http_accepted_counts_receives (cfg cfg' : Config) :
  rtc (step prefix net) cfg cfg' →
  (counter (world cfg') "http_accepted" + Z.of_nat (length (handoffs cfg))
     + Z.of_nat (count_threads is_Receiving (pool cfg)) =
   counter (world cfg) "http_accepted" + Z.of_nat (length (handoffs cfg'))
     + Z.of_nat (count_threads is_Receiving (pool cfg')))%Z.
Proof.
  induction 1 as [cfg|cfg cfg1 cfg' [a Ha] _ IH]; [lia|].
  destruct (step_by_counts _ _ _ Ha) as (_ & _ & Hr & _). lia.
Qed.

End Accounting.

Section Listeners.

Variable prefix : string.
Variable net : Net.





Lemma step_by_receiving (a : Action) (cfg cfg' : Config) (i : nat) (ch : chan) :
  step_by prefix net a cfg = Some cfg' →
  pool cfg !! i = Some (Receiving ch) →
  pool cfg' !! i = Some (Receiving ch) ∨
  ∃ conn, pool cfg' !! i = Some (Returned (VConn (Ok conn))).
Proof.
  destruct a as [k|k j]; cbn [step_by].
  - destruct (pool cfg !! k) as [[c0| | |]|] eqn:Hk; try done.
    destruct (run prefix net c0 (world cfg)) as [[t s']|] eqn:E; [|done].
    intros [= <-] Hi. left. cbn.
    rewrite list_lookup_insert_ne; [done|]. intros ->. congruence.
  - destruct (pool cfg !! k) as [[|ch0 conn| |]|] eqn:Hk; try done.
    destruct (pool cfg !! j) as [[| |ch'|]|] eqn:Hj; try done.
    destruct (decide (ch0 = ch')); [|done].
    intros [= <-] Hi. cbn.
    assert (k ≠ i) by (intros ->; congruence).
    destruct (decide (j = i)) as [->|Hji].
    + right. exists conn. rewrite list_lookup_insert_eq; [done|].
      rewrite length_insert. by eapply lookup_lt_Some.
    + left. by rewrite !list_lookup_insert_ne.
Qed.

Lemma steps_returned (cfg cfg' : Config) (i : nat) (v : Value) :
  rtc (step prefix net) cfg cfg' →
  pool cfg !! i = Some (Returned v) → pool cfg' !! i = Some (Returned v).
Proof.
  induction 1 as [cfg|cfg cfg1 cfg' [a Ha] _ IH]; [done|].
  intros Hi. apply IH. by eapply step_by_returned.
Qed.

(** An Accept blocked in the receive never returns an error: however the
    goroutines are scheduled afterwards, and whether or not the listener is
    closed meanwhile, it is still blocked or it has returned a connection. *)
Theorem blocked_Accept_never_fails (cfg cfg' : Config) (i : nat) (ch : chan) :
  pool cfg !! i = Some (Receiving ch) →
  rtc (step prefix net) cfg cfg' →
  pool cfg' !! i = Some (Receiving ch) ∨
  ∃ conn, pool cfg' !! i = Some (Returned (VConn (Ok conn))).
Proof.
  intros Hi Hsteps. revert Hi.
  induction Hsteps as [cfg|cfg cfg1 cfg' [a Ha] Hrest IH]; [by left|].
  intros Hi.
  destruct (step_by_receiving _ _ _ _ _ Ha Hi) as [Hr|(conn & Hr)].
  - by apply IH.
  - right. exists conn. by eapply steps_returned.
Qed.

End Listeners.

(** ** More on Dial *)

Lemma has_colon_default_port (address : string) :
  has_colon (address +:+ ":4934").
Proof.
  unfold has_colon. induction address as [|a address IH]; cbn.
  - left.
  - by right.
Qed.

(** The address Dial goes on with always carries a port separator, and
    completing it a second time changes nothing: an address Dial has
    completed is dialed as it is. *)
Theorem Dial_address_idempotent (address : string) :
  has_colon (Dial_address address) ∧
  Dial_address (Dial_address address) = Dial_address address.
Proof.
  assert (has_colon (Dial_address address)) as H.
  { unfold Dial_address, IndexRune.
    destruct (IndexByte address ":" <? 0)%Z eqn:E.
    - apply has_colon_default_port.
    - unfold has_colon.
      destruct (decide (":"%char ∈ list_ascii_of_string address)) as [|Hn];
        [done|].
      apply IndexByte_absent in Hn. congruence. }
  split; [done|]. by apply Dial_address_with_port.
Qed.

Section DialingOn.

Variable prefix : string.
Variable net : Net.

(** Dial is not gated on the closed flag: on a closed listener it returns
    the same result as on the open one, after the same outside calls, and
    leaves the same counters and connections. *)
Theorem Dial_after_Close (h : loc) (hs : HTTPStream) (address : string)
    (timeout : Duration) (s : State) :
  heap s !! h = Some hs →
  ∃ s1 r s' s1',
    Close h s = Some (None, s1) ∧
    Dial prefix net h address timeout s = Some (r, s') ∧
    Dial prefix net h address timeout s1 = Some (r, s1') ∧
    trace s1' = trace s' ∧ counters s1' = counters s' ∧ conns s1' = conns s'.
Proof.
  intros Hh. unfold Close. unfold_m. rewrite Hh.
  eexists _. 
  assert (heap (set_heap (<[h := set_closed true hs]>) s) !! h =
          Some (set_closed true hs)) as Hh1
    by (simpl_state; by rewrite lookup_insert_eq).
  rewrite (Dial_run _ _ _ _ _ _ _ Hh), (Dial_run _ _ _ _ _ _ _ Hh1).
  cbv zeta. unfold Dial_started, Dial_config, Dial_failed, counter.
  cbn [set_closed dial rootCAs certificates]. simpl_state.
  destruct (net_dial _ _ _ _ _ _) as [c|e];
    [destruct (net_write _ _ _ _) as [e|]|];
    eexists _, _, _; repeat split; reflexivity.
Qed.

(** What NewHTTPStream stores reaches every later Dial: whatever the
    goroutines did in between, Dial calls the TLS dialer on network "tcp" with
    the caller's timeout, a keep-alive of 25 seconds, the certificates given
    at construction, the CA's root pool, the dialed address as server name,
    and with certificate verification switched off. *)
Theorem Dial_uses_construction (addr0 : string) (certs : list tls_Certificate)
    (coreCA : CA) (s s1 : State) (h : loc) (e : option error)
    (p : list Thread) (ho : list Handoff) (cfg' : Config)
    (address : string) (timeout : Duration) :
  NewHTTPStream addr0 certs coreCA s = Some ((h, e), s1) →
  rtc (step prefix net) {| world := s1; pool := p; handoffs := ho |} cfg' →
  ∃ r s' evs,
    Dial prefix net h address timeout (world cfg') = Some (r, s') ∧
    trace s' = evs ++
      EvTLSDial {| Timeout := timeout; KeepAlive := 25000000000%Z |} "tcp"
        (Dial_address address)
        {| RootCAs := CertPool coreCA; Certificates := certs;
           ServerName := Dial_address address; InsecureSkipVerify := true |}
      :: EvDebug "httpstream" ("Dialing " +:+ Dial_address address)
      :: trace (world cfg').
Proof.
  rewrite NewHTTPStream_eq. intros Heq Hsteps.
  injection Heq as Hh0 He Hs1. subst h e.
  assert (heap (world {| world := s1; pool := p; handoffs := ho |}) !! next_loc s = Some
            {| closed := false; addr := addr0; accepted := next_chan s;
               dial := {| Timeout := 0%Z; KeepAlive := (Second * 25)%Z |};
               certificates := certs; ca := coreCA;
               rootCAs := CertPool coreCA |}) as Hh.
  { rewrite <- Hs1. cbn. by rewrite lookup_insert_eq. }
  destruct (heap_evolves_lookup _ _ _ _ (steps_heap _ _ _ _ Hsteps) Hh)
    as (hs' & Hh' & Hev).
  apply evolves_fields in Hev as (_ & _ & Hd & Hc & _ & Hr).
  rewrite (Dial_run _ _ _ _ _ _ _ Hh'). cbv zeta.
  unfold Dial_started, Dial_config, set_Timeout. rewrite Hd, Hc, Hr.
  cbn [dial certificates rootCAs KeepAlive].
  destruct (net_dial _ _ _ _ _ _) as [c|e];
    [destruct (net_write _ _ _ _) as [e|]|].
  - eexists _, _, [_; _]. by split.
  - eexists _, _, [_]. by split.
  - eexists _, _, [_]. by split.
Qed.

End DialingOn.

(** ** Agent results (package plugins) *)

Section AgentResults.

Context {Any : Type}.

(** AddValue on an allocated result succeeds; afterwards the key reads the
    value added, every other key of the result reads as before, and every
    other map is as it was. *)
Theorem AddValue_index (l : loc) (m : gmap string Any) (key : string)
    (value : Any) (ms : Maps Any) :
  maps ms !! l = Some m →
  ∃ ms',
    AddValue (Some l) key value ms = Some ms' ∧
    AgentResult_index (Some l) key ms' = Some value ∧
    (∀ key', key' ≠ key →
       AgentResult_index (Some l) key' ms' = AgentResult_index (Some l) key' ms) ∧
    (∀ l', l' ≠ l → maps ms' !! l' = maps ms !! l') ∧
    next_map ms' = next_map ms.
Proof.
  intros Hl. unfold AddValue, AgentResult_index. rewrite Hl. eexists.
  split; [reflexivity|]. cbn. rewrite lookup_insert_eq.
  split; [by rewrite lookup_insert_eq|]. split.
  - intros key' Hne. by rewrite lookup_insert_ne.
  - split; [|done]. intros l' Hne. by rewrite lookup_insert_ne.
Qed.

(** The last value added under a key wins, and values added under two
    different keys can be added in either order; both hold for every result,
    the nil one included, on which each side panics. *)
Theorem AddValue_overwrites_and_commutes (a : AgentResult) (k1 k2 : string)
    (v1 v2 : Any) (ms : Maps Any) :
  (AddValue a k1 v1 ms ≫= AddValue a k1 v2) = AddValue a k1 v2 ms ∧
  (k1 ≠ k2 →
   (AddValue a k1 v1 ms ≫= AddValue a k2 v2) =
   (AddValue a k2 v2 ms ≫= AddValue a k1 v1)).
Proof.
  destruct a as [l|]; [|done]. unfold AddValue.
  destruct (maps ms !! l) as [m|] eqn:Hl; [|done]. cbn.
  rewrite !lookup_insert_eq. split.
  - by rewrite !insert_insert_eq.
  - intros Hne. rewrite !insert_insert_eq.
    by rewrite (insert_insert_ne m k1 k2).
Qed.

(** A new agent result is not nil, has no key, and is a map of its own:
    adding a value to it succeeds and leaves every map that existed before as
    it was.  Adding a value to the nil result panics. *)
Theorem NewAgentResult_fresh (ms : Maps Any) (key : string) (value : Any) :
  maps_wf ms →
  ∃ l ms1 ms2,
    NewAgentResult ms = (Some l, ms1) ∧
    maps ms !! l = None ∧
    (∀ key', AgentResult_index (Some l) key' ms1 = None) ∧
    maps_wf ms1 ∧
    AddValue (Some l) key value ms1 = Some ms2 ∧
    AgentResult_index (Some l) key ms2 = Some value ∧
    (∀ l' m', maps ms !! l' = Some m' → maps ms2 !! l' = Some m') ∧
    AddValue None key value ms = None.
Proof.
  intros Hwf. unfold NewAgentResult, AddValue, AgentResult_index. cbn.
  assert (maps ms !! next_map ms = None) as Hfree.
  { destruct (maps ms !! next_map ms) as [m|] eqn:E; [|done].
    apply Hwf in E. lia. }
  eexists _, _, _. split; [reflexivity|]. cbn [maps next_map].
  rewrite !lookup_insert_eq.
  split; [done|]. split; [done|]. split.
  - intros l m. cbn. rewrite lookup_insert.
    case_decide; [intros _; lia|]. intros Hl. apply Hwf in Hl. lia.
  - split; [reflexivity|]. cbn [maps next_map]. rewrite !lookup_insert_eq.
    split; [done|]. split; [|done].
    intros l' m' Hl'. rewrite !lookup_insert_ne; [done| |]; intros <-; congruence.
Qed.

End AgentResults.

(** * The further properties on the example node *)

Lemma example_world_wf : listeners_wf example_world.
Proof.
  apply (NewHTTPStream_wf "10.0.0.1:4934" ["cert"] example_ca example_init
           example_world (0, None)); [|reflexivity].
  by apply listeners_wf_empty.
Qed.


Lemma example_maps_wf : maps_wf example_maps.
Proof.
  intros l m. cbn. rewrite lookup_singleton_Some. intros [<- _]. lia.
Qed.

Lemma ServeHTTP_after_Close_witness :
  ∃ s',
    ServeHTTP 0 example_writer example_request (world example_shutdown) =
      Some (ServeReturn, s') ∧
    trace s' = EvHTTPError (rw_id example_writer) "Server is shutting down" 503
                 :: trace (world example_shutdown) ∧
    conns s' = conns (world example_shutdown) ∧
    heap s' = heap (world example_shutdown).
Proof.
  apply (ServeHTTP_after_Close example_prefix net_up 0 example_world
           example_closed None [Running (CallAccept 0)] [] example_shutdown).
  - reflexivity.
  - apply rtc_refl.
Defined.

Lemma ServeHTTP_bad_upgrade_witness :
  ∃ s',
    ServeHTTP 0 example_writer example_plain_request example_served =
      Some (ServeReturn, s') ∧
    trace s' = EvHTTPError (rw_id example_writer)
                 "This endpoint is for streaming raft" 400
                 :: trace example_served ∧
    hijacked (trace s') = hijacked (trace example_served) ∧
    conns s' = conns example_served ∧
    heap s' = heap example_served.
Proof.
  apply (ServeHTTP_bad_upgrade 0 example_listener example_writer
           example_plain_request example_served).
  - reflexivity.
  - reflexivity.
  - left. reflexivity.
Defined.

Lemma ServeHTTP_no_hijacker_witness :
  ∃ s',
    ServeHTTP 0 example_plain_writer example_request example_served =
      Some (ServeReturn, s') ∧
    trace s' = EvHTTPError (rw_id example_plain_writer)
                 "webserver doesn't support hijacking" 500
                 :: trace example_served ∧
    hijacked (trace s') = hijacked (trace example_served) ∧
    conns s' = conns example_served.
Proof.
  apply (ServeHTTP_no_hijacker 0 example_listener example_plain_writer
           example_request example_served "node1"); reflexivity.
Defined.

Lemma ServeHTTP_hijack_fails_witness :
  ∃ s',
    ServeHTTP 0 example_failing_writer example_request example_served =
      Some (ServeReturn, s') ∧
    trace s' = EvHTTPError (rw_id example_failing_writer)
                 "connection already hijacked" 500
                 :: EvHijack (rw_id example_failing_writer)
                 :: trace example_served ∧
    conns s' = conns example_served.
Proof.
  apply (ServeHTTP_hijack_fails 0 example_listener example_failing_writer
           example_request example_served "node1"
           "connection already hijacked"); reflexivity.
Defined.

Lemma ServeHTTP_send_only_verified_witness :
  ∃ hs ident,
    heap example_served !! 0 = Some hs ∧
    closed hs = false ∧
    VerifyHTTPRequest (ca hs) example_request = Ok ident ∧
    Hijacker example_writer = Some (Ok 7).
Proof.
  eassert (ServeHTTP 0 example_writer example_request example_served =
           Some (ServeSend 0 7, _)) as Hsend by (vm_compute; reflexivity).
  destruct (ServeHTTP_send_only_verified _ _ _ _ _ _ _ Hsend)
    as (hs & ident & Hh & Hc & _ & Hv & Hj & _).
  exists hs, ident. repeat split; assumption.
Defined.

Lemma ServeHTTP_one_response_witness :
  ∃ b s',
    ServeHTTP 0 example_writer example_stranger example_served = Some (b, s') ∧
    match b with
    | ServeReturn =>
        ∃ msg code,
          responses (trace s') =
            (rw_id example_writer, msg, code) :: responses (trace example_served) ∧
          code ∈ [503; 400; 401; 500]%Z
    | ServeSend _ _ => responses (trace s') = responses (trace example_served)
    end.
Proof.
  apply (ServeHTTP_one_response 0 example_listener example_writer
           example_stranger example_served).
  reflexivity.
Defined.

Lemma Close_idempotent_witness :
  ∃ s1,
    Close 0 example_two = Some (None, s1) ∧
    Close 0 s1 = Some (None, s1) ∧
    heap s1 !! 0 = Some (set_closed true example_listener) ∧
    (∀ h', h' ≠ 0 → heap s1 !! h' = heap example_two !! h') ∧
    counters s1 = counters example_two ∧ conns s1 = conns example_two ∧
    trace s1 = trace example_two ∧
    next_loc s1 = next_loc example_two ∧ next_chan s1 = next_chan example_two.
Proof.
  apply (Close_idempotent 0 example_listener example_two).
  reflexivity.
Defined.

Lemma NewHTTPStream_fresh_witness :
  ∃ h hs s1,
    NewHTTPStream "10.0.0.1:4935" ["cert"] example_ca example_world =
      Some ((h, None), s1) ∧
    heap example_world !! h = None ∧
    heap s1 !! h = Some hs ∧
    closed hs = false ∧ addr hs = "10.0.0.1:4935" ∧ certificates hs = ["cert"] ∧
    rootCAs hs = CertPool example_ca ∧
    dial hs = {| Timeout := 0%Z; KeepAlive := 25000000000%Z |} ∧
    (∀ h' hs', heap example_world !! h' = Some hs' →
       heap s1 !! h' = Some hs' ∧ accepted hs' ≠ accepted hs) ∧
    listeners_wf s1.
Proof.
  apply (NewHTTPStream_fresh "10.0.0.1:4935" ["cert"] example_ca example_world).
  apply example_world_wf.
Defined.

Lemma http_served_counts_calls_witness :
  (counter (world example_busy_end) "http_served"
     + Z.of_nat (count_threads is_ServeHTTP (pool example_busy_end)) =
   counter (world example_busy) "http_served"
     + Z.of_nat (count_threads is_ServeHTTP (pool example_busy)))%Z.
Proof.
  apply (http_served_counts_calls example_prefix net_reset example_busy
           example_busy_end).
  apply (exec_steps example_prefix net_reset example_schedule).
  vm_compute. reflexivity.
Defined.

Lemma http_dialed_counts_calls_witness :
  (counter (world example_busy_end) "http_dialed"
     + Z.of_nat (count_threads is_Dial (pool example_busy_end)) =
   counter (world example_busy) "http_dialed"
     + Z.of_nat (count_threads is_Dial (pool example_busy)))%Z ∧
  (0 ≤ counter (world example_busy_end) "http_failed"
       - counter (world example_busy) "http_failed" ≤
   counter (world example_busy_end) "http_dialed"
     - counter (world example_busy) "http_dialed")%Z.
Proof.
  apply (http_dialed_counts_calls example_prefix net_reset example_busy
           example_busy_end).
  apply (exec_steps example_prefix net_reset example_schedule).
  vm_compute. reflexivity.
Defined.

Lemma http_accepted_counts_receives_witness :
  (counter (world example_busy_end) "http_accepted"
     + Z.of_nat (length (handoffs example_busy))
     + Z.of_nat (count_threads is_Receiving (pool example_busy)) =
   counter (world example_busy) "http_accepted"
     + Z.of_nat (length (handoffs example_busy_end))
     + Z.of_nat (count_threads is_Receiving (pool example_busy_end)))%Z.
Proof.
  apply (http_accepted_counts_receives example_prefix net_reset example_busy
           example_busy_end).
  apply (exec_steps example_prefix net_reset example_schedule).
  vm_compute. reflexivity.
Defined.


Lemma blocked_Accept_never_fails_witness :
  pool example_race_end !! 0 = Some (Receiving 0) ∨
  ∃ conn, pool example_race_end !! 0 = Some (Returned (VConn (Ok conn))).
Proof.
  apply (blocked_Accept_never_fails example_prefix net_up example_blocked
           example_race_end 0 0).
  - reflexivity.
  - apply (exec_steps example_prefix net_up [Run 1]). vm_compute. reflexivity.
Defined.

Lemma Dial_after_Close_witness :
  ∃ s1 r s' s1',
    Close 0 example_world = Some (None, s1) ∧
    Dial example_prefix net_up 0 "10.0.0.5" 5%Z example_world = Some (r, s') ∧
    Dial example_prefix net_up 0 "10.0.0.5" 5%Z s1 = Some (r, s1') ∧
    trace s1' = trace s' ∧ counters s1' = counters s' ∧ conns s1' = conns s'.
Proof.
  apply (Dial_after_Close example_prefix net_up 0 example_listener
           "10.0.0.5" 5%Z example_world).
  reflexivity.
Defined.

Lemma Dial_uses_construction_witness :
  ∃ r s' evs,
    Dial example_prefix net_up 0 "10.0.0.9" 7%Z (world example_race_end) =
      Some (r, s') ∧
    trace s' = evs ++
      EvTLSDial {| Timeout := 7%Z; KeepAlive := 25000000000%Z |} "tcp"
        (Dial_address "10.0.0.9")
        {| RootCAs := CertPool example_ca; Certificates := ["cert"];
           ServerName := Dial_address "10.0.0.9"; InsecureSkipVerify := true |}
      :: EvDebug "httpstream" ("Dialing " +:+ Dial_address "10.0.0.9")
      :: trace (world example_race_end).
Proof.
  apply (Dial_uses_construction example_prefix net_up "10.0.0.1:4934"
           ["cert"] example_ca example_init example_world 0 None
           (pool example_race) [] example_race_end).
  - reflexivity.
  - apply (exec_steps example_prefix net_up [Run 0; Run 1]).
    vm_compute. reflexivity.
Defined.

Lemma AddValue_index_witness :
  ∃ ms',
    AddValue (Some 0) "users" 12%Z example_maps = Some ms' ∧
    AgentResult_index (Some 0) "users" ms' = Some 12%Z ∧
    (∀ key', key' ≠ "users" →
       AgentResult_index (Some 0) key' ms' =
       AgentResult_index (Some 0) key' example_maps) ∧
    (∀ l', l' ≠ 0 → maps ms' !! l' = maps example_maps !! l') ∧
    next_map ms' = next_map example_maps.
Proof.
  apply (AddValue_index 0 {[ "load" := 3%Z ]} "users" 12%Z example_maps).
  reflexivity.
Defined.

Lemma NewAgentResult_fresh_witness :
  ∃ l ms1 ms2,
    NewAgentResult example_maps = (Some l, ms1) ∧
    maps example_maps !! l = None ∧
    (∀ key', AgentResult_index (Some l) key' ms1 = None) ∧
    maps_wf ms1 ∧
    AddValue (Some l) "load" 5%Z ms1 = Some ms2 ∧
    AgentResult_index (Some l) "load" ms2 = Some 5%Z ∧
    (∀ l' m', maps example_maps !! l' = Some m' → maps ms2 !! l' = Some m') ∧
    AddValue None "load" 5%Z example_maps = None.
Proof.
  apply (NewAgentResult_fresh example_maps "load" 5%Z).
  apply example_maps_wf.
Defined.
